(** * The Snowflake adapter of sqlit: identifier quoting, preview SQL,
      catalog inspection and query execution

    A shallow embedding of [sqlit/db/adapters/snowflake.py].  Python
    strings are [string], Python integers are [Z], a DB-API connection
    with its cursor is a state threaded through a small state and
    exception monad, and the Snowflake account the adapter talks to is
    a record of information-schema relations together with the meaning
    of the catalog statements the adapter sends. *)

From Stdlib Require Import ZArith String Ascii List Sorted.
From stdpp Require Import base decidable option list strings gmap sorting pretty.

(** ** Python values, exceptions and a few built-ins *)

Module Py.

(** The scalars that travel through rows and bind parameters. *)
Inductive value : Type :=
| VNone
| VBool (b : bool)
| VInt (z : Z)
| VStr (s : string).

(** The exceptions a method of the adapter can let through. *)
Inductive exn : Type :=
| IndexError
| AttributeError (attr : string)
| ProgrammingError (msg : string)
| DatabaseError (msg : string).

Inductive result (A : Type) : Type :=
| Ok (a : A)
| Raise (e : exn).
Arguments Ok {A} a.
Arguments Raise {A} e.

(** The double-quote character. *)
Definition dquote : ascii := ascii_of_nat 34.

(** [s.replace(c, new)] for a one-character pattern [c]: every
    occurrence of [c], left to right, becomes [new]. *)
Fixpoint str_replace (c : ascii) (new : string) (s : string) : string :=
  match s with
  | EmptyString => EmptyString
  | String a s' =>
      if Ascii.eqb a c then new +:+ str_replace c new s'
      else String a (str_replace c new s')
  end.

(** Truthiness of a [str | None] argument, as used by [x or default]
    and [if x]: [None] and the empty string are falsy. *)
Definition str_truthy (o : option string) : option string :=
  match o with
  | Some EmptyString => None
  | Some s => Some s
  | None => None
  end.

(** [x or default] on a [str | None]. *)
Definition str_or (o : option string) (default : string) : string :=
  match str_truthy o with
  | Some s => s
  | None => default
  end.

(** [str(n)] / the f-string rendering of an [int]. *)
Definition str_of_int (n : Z) : string := pretty n.

(** [seq[i]] for a literal non-negative index [i]. *)
Definition index {A} (l : list A) (i : nat) : result A :=
  match l !! i with
  | Some x => Ok x
  | None => Raise IndexError
  end.

(** [seq[:k]]: a negative bound counts from the end. *)
Definition slice_to {A} (k : Z) (l : list A) : list A :=
  if (0 <=? k)%Z then take (Z.to_nat k) l
  else take (length l - Z.to_nat (- k)) l.

(** Python equality identifies [True] with 1 and [False] with 0, and
    sets and [in] compare by it: the representative a value is hashed
    and compared as. *)
Definition eq_key (v : value) : value :=
  match v with
  | VBool b => VInt (Z.b2z b)
  | _ => v
  end.

(** [s.count(c)] for a one-character pattern [c]. *)
Fixpoint str_count (c : ascii) (s : string) : nat :=
  match s with
  | EmptyString => 0
  | String a s' => (if Ascii.eqb a c then 1 else 0) + str_count c s'
  end.

(** [len(seq)] as a Python integer. *)
Definition len {A} (l : list A) : Z := Z.of_nat (length l).

End Py.
Export Py.

#[global] Instance value_eq_dec : EqDecision value.
Proof. solve_decision. Defined.

#[global] Instance result_ret : MRet result := fun _ a => Ok a.
#[global] Instance result_bind : MBind result := fun _ _ f m =>
  match m with
  | Ok a => f a
  | Raise e => Raise e
  end.

(** ** Identifier quoting and the preview statement *)

Module SnowflakeSql.

(** [default_schema] of the variant. *)
Definition default_schema : string := "PUBLIC".

(** [quote_identifier]:
    [escaped = name.replace(dq, dq dq); return dq + escaped + dq]. *)
Definition escaped (name : string) : string :=
  str_replace dquote (String dquote (String dquote "")) name.

Definition quote_identifier (name : string) : string :=
  String dquote "" +:+ escaped name +:+ String dquote "".

(** [build_select_query]: [schema = schema or PUBLIC] and then the
    f-string [SELECT * FROM dq{schema}dq.dq{table}dq LIMIT {limit}]. *)
Definition build_select_query (table : string) (limit : Z)
    (database : option string) (schema : option string) : string :=
  let schema := str_or schema "PUBLIC" in
  "SELECT * FROM " +:+ String dquote "" +:+ schema +:+ String dquote ""
    +:+ "." +:+ String dquote "" +:+ table +:+ String dquote ""
    +:+ " LIMIT " +:+ str_of_int limit.

(** The preview statement as the contract words it: every identifier
    component goes through [quote_identifier], the schema being the
    given one or [default_schema] when it is omitted. *)
Definition build_select_query_quoted (table : string) (limit : Z)
    (schema : option string) : string :=
  "SELECT * FROM " +:+ quote_identifier (default default_schema schema)
    +:+ "." +:+ quote_identifier table
    +:+ " LIMIT " +:+ str_of_int limit.

(** *** Reading a quoted identifier back *)

(** The body of a quoted identifier, read after its opening quote: a
    doubled quote stands for one quote, a single quote closes the
    identifier.  Returns the name and the text after the closing
    quote; [None] when the identifier is not closed. *)
Fixpoint scan_quoted (s : string) : option (string * string) :=
  match s with
  | EmptyString => None
  | String a s' =>
      if Ascii.eqb a dquote then
        match s' with
        | String b s'' =>
            if Ascii.eqb b dquote then
              '(n, rest) ← scan_quoted s''; Some (String dquote n, rest)
            else Some (EmptyString, s')
        | EmptyString => Some (EmptyString, EmptyString)
        end
      else '(n, rest) ← scan_quoted s'; Some (String a n, rest)
  end.

(** A whole string read as one quoted identifier. *)
Definition unquote_identifier (s : string) : option string :=
  match s with
  | String a s' =>
      if Ascii.eqb a dquote then
        match scan_quoted s' with
        | Some (n, EmptyString) => Some n
        | _ => None
        end
      else None
  | EmptyString => None
  end.

(** The two steps spelled out: drop the outer quotes, then turn each
    doubled quote into one. *)
Fixpoint drop_last_quote (s : string) : option string :=
  match s with
  | EmptyString => None
  | String a EmptyString =>
      if Ascii.eqb a dquote then Some EmptyString else None
  | String a s' => String a <$> drop_last_quote s'
  end.

Definition strip_outer_quotes (s : string) : option string :=
  match s with
  | String a s' => if Ascii.eqb a dquote then drop_last_quote s' else None
  | EmptyString => None
  end.

Fixpoint collapse_doubled_quotes (s : string) : string :=
  match s with
  | EmptyString => EmptyString
  | String a s' =>
      if Ascii.eqb a dquote then
        match s' with
        | String b s'' =>
            if Ascii.eqb b dquote
            then String dquote (collapse_doubled_quotes s'')
            else String a (collapse_doubled_quotes s')
        | EmptyString => String a EmptyString
        end
      else String a (collapse_doubled_quotes s')
  end.

(** Whether [p] occurs in [s] as a contiguous piece. *)
Fixpoint occurs (p s : string) : bool :=
  String.prefix p s ||
  match s with
  | EmptyString => false
  | String _ s' => occurs p s'
  end.

(** A name without any quote character. *)
Definition quote_free (s : string) : Prop := occurs (String dquote "") s = false.

(** A text that cannot be taken for the continuation of a quoted
    identifier: it does not begin with a quote. *)
Definition not_quote_led (s : string) : Prop :=
  match s with
  | String b _ => Ascii.eqb b dquote = false
  | EmptyString => True
  end.

End SnowflakeSql.
Export SnowflakeSql.

#[global] Program Instance value_countable : Countable value :=
  inj_countable'
    (fun v => match v with
              | VNone => inl ()
              | VBool b => inr (inl b)
              | VInt z => inr (inr (inl z))
              | VStr s => inr (inr (inr s))
              end)
    (fun x => match x with
              | inl _ => VNone
              | inr (inl b) => VBool b
              | inr (inr (inl z)) => VInt z
              | inr (inr (inr s)) => VStr s
              end) _.
Next Obligation. by intros []. Qed.

(** ** The DB-API connection as seen by the adapter *)

Module DBAPI.

Definition row : Type := list value.

(** One entry of [cursor.description]; [col[0]] is its name. *)
Record column_descriptor : Type := ColumnDescriptor {
  col_name : string;
  col_type_code : Z
}.

(** What the backend hands over for one executed statement. *)
Record result_set : Type := ResultSet {
  rs_description : option (list column_descriptor);
  rs_rows : list row;
  rs_rowcount : option Z
}.

(** A cursor: the descriptor and row count of the last statement and
    the rows not fetched yet. *)
Record cursor : Type := Cursor {
  description : option (list column_descriptor);
  pending : list row;
  rowcount : option Z
}.

Definition fresh_cursor : cursor :=
  {| description := None; pending := []; rowcount := None |}.

Definition cursor_of (rs : result_set) : cursor :=
  {| description := rs_description rs;
     pending := rs_rows rs;
     rowcount := rs_rowcount rs |}.

(** The driver: running one statement, with its bind parameters if
    any, against the backend state [B]. *)
Class Driver (B : Type) : Type :=
  driver_execute : B -> string -> option (list value) -> result result_set * B.
Arguments driver_execute : simpl never.

(** The connection object [conn] and the one cursor a method opens
    on it. *)
Record session (B : Type) : Type := Session {
  conn : B;
  cur : cursor
}.
Arguments Session {B} conn cur.
Arguments conn {B} s.
Arguments cur {B} s.

(** Methods run in a state-and-exception monad over the session. *)
Definition M (B A : Type) : Type := session B -> result A * session B.

Definition lift {B A} (r : result A) : M B A := fun s => (r, s).

(** [conn.cursor()] *)
Definition conn_cursor {B} : M B unit :=
  fun s => (Ok (), Session (conn s) fresh_cursor).

(** [cursor.execute(sql)] and [cursor.execute(sql, params)] *)
Definition cursor_execute `{Driver B} (sql : string)
    (params : option (list value)) : M B unit :=
  fun s =>
    match driver_execute (conn s) sql params with
    | (Ok rs, b) => (Ok (), Session b (cursor_of rs))
    | (Raise e, b) => (Raise e, Session b (cur s))
    end.

(** [cursor.fetchall()]: every pending row, leaving none. *)
Definition cursor_fetchall {B} : M B (list row) :=
  fun s =>
    let c := cur s in
    (Ok (pending c),
     Session (conn s)
       {| description := description c; pending := [];
          rowcount := rowcount c |}).

(** [cursor.fetchmany(size)]: the next [size] pending rows, fewer
    when the result is exhausted; the connector rejects a negative
    size. *)
Definition cursor_fetchmany {B} (size : Z) : M B (list row) :=
  fun s =>
    let c := cur s in
    if (size <? 0)%Z then
      (Raise (ProgrammingError
                "The number of rows is not zero or positive number"), s)
    else
      (Ok (take (Z.to_nat size) (pending c)),
       Session (conn s)
         {| description := description c;
            pending := drop (Z.to_nat size) (pending c);
            rowcount := rowcount c |}).

(** [cursor.description] and [cursor.rowcount] *)
Definition cursor_description {B} : M B (option (list column_descriptor)) :=
  fun s => (Ok (description (cur s)), s).

Definition cursor_rowcount {B} : M B (option Z) :=
  fun s => (Ok (rowcount (cur s)), s).

(** A row ceiling a caller may pass: none, or a count of rows. *)
Definition row_ceiling (max_rows : option Z) : Prop :=
  match max_rows with
  | Some k => (0 <= k)%Z
  | None => True
  end.

(** The returned value, or the exception raised. *)
Definition outcome {B A} (m : M B A) (s : session B) : result A := (m s).1.

(** How many rows have been taken off a cursor that started with
    [rows]. *)
Definition fetched_from (rows : list row) (c : cursor) : nat :=
  length rows - length (pending c).

End DBAPI.
Export DBAPI.

#[global] Instance M_ret {B} : MRet (M B) := fun _ a s => (Ok a, s).
#[global] Instance M_bind {B} : MBind (M B) := fun _ _ f m s =>
  match m s with
  | (Ok a, s') => f a s'
  | (Raise e, s') => (Raise e, s')
  end.

(** ** The adapter's methods *)

Module SnowflakeAdapter.

(** Modelled from the spec: [TableInfo], declared in the absent
    [base] module, is a pair (schema name, table name). *)
Definition TableInfo : Type := value * value.

(** Modelled from the spec: [ColumnInfo], declared in the absent
    [base] module, holds a name, the backend-reported data-type label
    and the primary-key membership. *)
Record ColumnInfo : Type := mkColumnInfo {
  name : value;
  data_type : value;
  is_primary_key : bool
}.

(** Modelled from the spec: [IndexInfo] and [TriggerInfo], declared in
    the absent [base] module, carry at least a name. *)
Record IndexInfo : Type := mkIndexInfo { index_name : value }.
Record TriggerInfo : Type := mkTriggerInfo { trigger_name : value }.

Section methods.
Context {B : Type} `{!Driver B}.

(** [f"{self.quote_identifier(database)}." if database else ""] *)
Definition db_prefix_of (database : option string) : string :=
  match str_truthy database with
  | Some d => quote_identifier d +:+ "."
  | None => ""
  end.

(** The first [get_tables] of the class body, over SHOW TABLES. *)
Definition get_tables_show_tables (database : option string)
    : M B (list TableInfo) :=
  conn_cursor;;
  let query := "SHOW TABLES" in
  let query :=
    match str_truthy database with
    | Some d => query +:+ " IN DATABASE " +:+ quote_identifier d
    | None => query
    end in
  cursor_execute query None;;
  rows ← cursor_fetchall;
  lift (mapM (fun row : row =>
                a ← index row 3; b ← index row 1; mret (a, b)) rows).

(** [get_tables_via_info_schema] *)
Definition get_tables_via_info_schema (database : option string)
    : M B (list TableInfo) :=
  conn_cursor;;
  let db_prefix := db_prefix_of database in
  let sql :=
    "SELECT table_schema, table_name FROM " +:+ db_prefix +:+
    "information_schema.tables WHERE table_type = 'BASE TABLE' AND table_schema != 'INFORMATION_SCHEMA' ORDER BY table_schema, table_name" in
  cursor_execute sql None;;
  rows ← cursor_fetchall;
  lift (mapM (fun row : row =>
                a ← index row 0; b ← index row 1; mret (a, b)) rows).

(** The second [get_tables] of the class body. *)
Definition get_tables_delegating (database : option string)
    : M B (list TableInfo) :=
  get_tables_via_info_schema database.

(** The table-listing methods in the order the class body binds them;
    executing the body assigns each name in turn, so a later binding
    of a name replaces the earlier one. *)
Definition class_body
    : list (string * (option string -> M B (list TableInfo))) :=
  [ ("get_tables", get_tables_show_tables);
    ("get_tables_via_info_schema", get_tables_via_info_schema);
    ("get_tables", get_tables_delegating) ].

Definition class_namespace
    : gmap string (option string -> M B (list TableInfo)) :=
  foldl (fun ns d => <[d.1 := d.2]> ns) ∅ class_body.

(** [adapter.get_tables(conn, database)]: the attribute is looked up in
    the class namespace. *)
Definition get_tables (database : option string) : M B (list TableInfo) :=
  match class_namespace !! "get_tables" with
  | Some method => method database
  | None => lift (Raise (AttributeError "get_tables"))
  end.

(** The two statements of [get_columns]. *)
Definition columns_sql (db_prefix : string) : string :=
  "
            SELECT column_name, data_type, ordinal_position
            FROM " +:+ db_prefix +:+ "information_schema.columns
            WHERE table_schema = %s AND table_name = %s
            ORDER BY ordinal_position
        ".

Definition pk_sql (db_prefix : string) : string :=
  "
            SELECT kcu.column_name
            FROM " +:+ db_prefix +:+ "information_schema.table_constraints tc
            JOIN " +:+ db_prefix +:+ "information_schema.key_column_usage kcu
              ON tc.constraint_name = kcu.constraint_name
              AND tc.table_schema = kcu.table_schema
            WHERE tc.constraint_type = 'PRIMARY KEY'
            AND tc.table_schema = %s AND tc.table_name = %s
        ".

(** [get_columns] *)
Definition get_columns (table : string) (database : option string)
    (schema : option string) : M B (list ColumnInfo) :=
  conn_cursor;;
  let schema := str_or schema "PUBLIC" in
  let db_prefix := db_prefix_of database in
  let sql := columns_sql db_prefix in
  cursor_execute sql (Some [VStr schema; VStr table]);;
  let pk_sql := pk_sql db_prefix in
  rows ← cursor_fetchall;
  cursor_execute pk_sql (Some [VStr schema; VStr table]);;
  pk_rows ← cursor_fetchall;
  pk_columns ← lift (mapM (fun row : row => index row 0) pk_rows);
  let pk_columns : gset value := list_to_set (eq_key <$> pk_columns) in
  lift (mapM (fun row : row =>
                n ← index row 0;
                t ← index row 1;
                n' ← index row 0;
                mret (mkColumnInfo n t (bool_decide (eq_key n' ∈ pk_columns))))
             rows).

(** [get_indexes] and [get_triggers] *)
Definition get_indexes (database : option string) : M B (list IndexInfo) :=
  mret [].

Definition get_triggers (database : option string) : M B (list TriggerInfo) :=
  mret [].

(** [execute_query] *)
Definition execute_query (query : string) (max_rows : option Z)
    : M B (list string * list row * bool) :=
  conn_cursor;;
  cursor_execute query None;;
  let columns := [] in
  d ← cursor_description;
  let columns :=
    match d with
    | Some (c :: cs) => col_name <$> (c :: cs)
    | _ => columns
    end in
  '(rows, truncated) ←
    match max_rows with
    | Some max_rows =>
        rows ← cursor_fetchmany (max_rows + 1);
        let truncated := (max_rows <? len rows)%Z in
        let rows := if truncated then slice_to max_rows rows else rows in
        mret (rows, truncated)
    | None =>
        rows ← cursor_fetchall;
        mret (rows, false)
    end;
  mret (columns, rows, truncated).

(** [execute_non_query] *)
Definition execute_non_query (query : string) : M B Z :=
  conn_cursor;;
  cursor_execute query None;;
  rc ← cursor_rowcount;
  mret (match rc with
        | Some n => n
        | None => (-1)%Z
        end).

End methods.

End SnowflakeAdapter.
Export SnowflakeAdapter.

(** ** The backend: information-schema relations and the meaning of
       the catalog statements *)

Module SnowflakeBackend.

(** Rows of [information_schema.tables]. *)
Record tables_row : Type := TablesRow {
  table_schema : string;
  table_name : string;
  table_type : string
}.

(** Rows of [information_schema.columns]. *)
Record columns_row : Type := ColumnsRow {
  c_table_schema : string;
  c_table_name : string;
  column_name : string;
  c_data_type : string;
  ordinal_position : Z
}.

(** Rows of [information_schema.table_constraints]. *)
Record constraints_row : Type := ConstraintsRow {
  tc_constraint_name : string;
  tc_table_schema : string;
  tc_table_name : string;
  constraint_type : string
}.

(** Rows of [information_schema.key_column_usage]. *)
Record key_column_row : Type := KeyColumnRow {
  kcu_constraint_name : string;
  kcu_table_schema : string;
  kcu_column_name : string
}.

(** The information schema of one database. *)
Record catalog : Type := Catalog {
  info_tables : list tables_row;
  info_columns : list columns_row;
  info_table_constraints : list constraints_row;
  info_key_column_usage : list key_column_row
}.

(** An account: its databases by name, the database of the session,
    and the order in which the engine produces the rows of a relation
    it scans; any rearrangement is allowed, and only ORDER BY fixes an
    order. *)
Record account : Type := Account {
  databases : gmap string catalog;
  current_database : option string;
  scan : forall A : Type, list A -> list A;
  scan_rearranges : forall (A : Type) (l : list A), scan A l ≡ₚ l
}.

(** The catalog statements the adapter sends, each with the database
    qualifier in front of [information_schema], if any. *)
Inductive statement : Type :=
| SelectBaseTables (db : option string)
| SelectColumns (db : option string)
| SelectPrimaryKeyColumns (db_tc db_kcu : option string).

(** *** Reading the statement text *)

Fixpoint strip_prefix (p s : string) : option string :=
  match p with
  | EmptyString => Some s
  | String a p' =>
      match s with
      | String b s' => if Ascii.eqb a b then strip_prefix p' s' else None
      | EmptyString => None
      end
  end.

(** An optional qualifier: a quoted identifier followed by a dot. *)
Definition parse_qualifier (s : string) : option (option string * string) :=
  match s with
  | String a s' =>
      if Ascii.eqb a dquote then
        '(n, rest) ← scan_quoted s';
        match rest with
        | String b rest' =>
            if Ascii.eqb b "."%char then Some (Some n, rest') else None
        | EmptyString => None
        end
      else Some (None, s)
  | EmptyString => Some (None, s)
  end.

Definition tables_head : string := "SELECT table_schema, table_name FROM ".
Definition tables_tail : string :=
  "information_schema.tables WHERE table_type = 'BASE TABLE' AND table_schema != 'INFORMATION_SCHEMA' ORDER BY table_schema, table_name".

Definition columns_head : string :=
  "
            SELECT column_name, data_type, ordinal_position
            FROM ".
Definition columns_tail : string :=
  "information_schema.columns
            WHERE table_schema = %s AND table_name = %s
            ORDER BY ordinal_position
        ".

Definition pk_head : string :=
  "
            SELECT kcu.column_name
            FROM ".
Definition pk_middle : string :=
  "information_schema.table_constraints tc
            JOIN ".
Definition pk_tail : string :=
  "information_schema.key_column_usage kcu
              ON tc.constraint_name = kcu.constraint_name
              AND tc.table_schema = kcu.table_schema
            WHERE tc.constraint_type = 'PRIMARY KEY'
            AND tc.table_schema = %s AND tc.table_name = %s
        ".

Definition parse_tables (sql : string) : option statement :=
  r ← strip_prefix tables_head sql;
  '(d, r) ← parse_qualifier r;
  if String.eqb r tables_tail then Some (SelectBaseTables d) else None.

Definition parse_columns (sql : string) : option statement :=
  r ← strip_prefix columns_head sql;
  '(d, r) ← parse_qualifier r;
  if String.eqb r columns_tail then Some (SelectColumns d) else None.

Definition parse_pk (sql : string) : option statement :=
  r ← strip_prefix pk_head sql;
  '(d1, r) ← parse_qualifier r;
  r ← strip_prefix pk_middle r;
  '(d2, r) ← parse_qualifier r;
  if String.eqb r pk_tail then Some (SelectPrimaryKeyColumns d1 d2) else None.

Definition parse_statement (sql : string) : option statement :=
  match parse_tables sql with
  | Some st => Some st
  | None =>
      match parse_columns sql with
      | Some st => Some st
      | None => parse_pk sql
      end
  end.

(** *** Orders used by ORDER BY *)

(** [ORDER BY table_schema, table_name] *)
Definition tables_le (r1 r2 : tables_row) : Prop :=
  if decide (table_schema r1 = table_schema r2)
  then String.le (table_name r1) (table_name r2)
  else String.le (table_schema r1) (table_schema r2).

(** [ORDER BY ordinal_position] *)
Definition ordinal_le (c1 c2 : columns_row) : Prop :=
  (ordinal_position c1 <= ordinal_position c2)%Z.

End SnowflakeBackend.
Export SnowflakeBackend.

#[global] Instance tables_le_dec r1 r2 : Decision (tables_le r1 r2).
Proof. unfold tables_le. destruct (decide _); apply _. Defined.
#[global] Instance ordinal_le_dec c1 c2 : Decision (ordinal_le c1 c2).
Proof. unfold ordinal_le. apply _. Defined.

Module SnowflakeEngine.

(** The database a statement addresses: the qualifier if there is one,
    the session's database otherwise. *)
Definition resolve (a : account) (db : option string) : result catalog :=
  match db with
  | Some d =>
      match databases a !! d with
      | Some cat => Ok cat
      | None => Raise (ProgrammingError "Database does not exist or not authorized")
      end
  | None =>
      match current_database a with
      | Some d =>
          match databases a !! d with
          | Some cat => Ok cat
          | None => Raise (ProgrammingError "Database does not exist or not authorized")
          end
      | None => Raise (ProgrammingError "Cannot perform SELECT. This session does not have a current database")
      end
  end.

(** [WHERE table_type = 'BASE TABLE' AND table_schema != 'INFORMATION_SCHEMA'] *)
Definition base_table_outside_info_schema (r : tables_row) : Prop :=
  table_type r = "BASE TABLE" ∧ table_schema r ≠ "INFORMATION_SCHEMA".

(** [WHERE table_schema = %s AND table_name = %s] *)
Definition column_of (p_schema p_table : value) (c : columns_row) : Prop :=
  VStr (c_table_schema c) = p_schema ∧ VStr (c_table_name c) = p_table.

(** The join and filter of the primary-key statement. *)
Definition primary_key_of (p_schema p_table : value)
    (j : constraints_row * key_column_row) : Prop :=
  tc_constraint_name j.1 = kcu_constraint_name j.2
  ∧ tc_table_schema j.1 = kcu_table_schema j.2
  ∧ constraint_type j.1 = "PRIMARY KEY"
  ∧ VStr (tc_table_schema j.1) = p_schema
  ∧ VStr (tc_table_name j.1) = p_table.

Definition select_base_tables (a : account) (cat : catalog) : list tables_row :=
  merge_sort tables_le
    (filter base_table_outside_info_schema (scan a _ (info_tables cat))).

Definition select_columns (a : account) (cat : catalog)
    (p_schema p_table : value) : list columns_row :=
  merge_sort ordinal_le
    (filter (column_of p_schema p_table) (scan a _ (info_columns cat))).

Definition select_primary_key_columns (a : account) (cat_tc cat_kcu : catalog)
    (p_schema p_table : value) : list key_column_row :=
  snd <$> filter (primary_key_of p_schema p_table)
            (scan a _ (tc ← info_table_constraints cat_tc;
                       kcu ← info_key_column_usage cat_kcu;
                       [(tc, kcu)])).

Definition described (names : list string) : option (list column_descriptor) :=
  Some ((fun n => ColumnDescriptor n 2) <$> names).

Definition answer {A} (names : list string) (proj : A -> row) (l : list A)
    : result_set :=
  ResultSet (described names) (proj <$> l) (Some (len l)).

Definition run_statement (a : account) (st : statement)
    (params : option (list value)) : result result_set :=
  match st, params with
  | SelectBaseTables db, None =>
      cat ← resolve a db;
      mret (answer ["TABLE_SCHEMA"; "TABLE_NAME"]
              (fun r => [VStr (table_schema r); VStr (table_name r)])
              (select_base_tables a cat))
  | SelectColumns db, Some [p_schema; p_table] =>
      cat ← resolve a db;
      mret (answer ["COLUMN_NAME"; "DATA_TYPE"; "ORDINAL_POSITION"]
              (fun c => [VStr (column_name c); VStr (c_data_type c);
                         VInt (ordinal_position c)])
              (select_columns a cat p_schema p_table))
  | SelectPrimaryKeyColumns db_tc db_kcu, Some [p_schema; p_table] =>
      cat_tc ← resolve a db_tc;
      cat_kcu ← resolve a db_kcu;
      mret (answer ["COLUMN_NAME"]
              (fun k => [VStr (kcu_column_name k)])
              (select_primary_key_columns a cat_tc cat_kcu p_schema p_table))
  | _, _ => Raise (ProgrammingError "Bind variable count does not match")
  end.

(** The names the key statement reports: the first field of each of
    its rows. *)
Definition reported_key_columns (a : account) (cat : catalog)
    (p_schema p_table : value) : list value :=
  (fun k => VStr (kcu_column_name k))
    <$> select_primary_key_columns a cat cat p_schema p_table.

(** The [TableInfo] and the [ColumnInfo] made from a catalog row, the
    latter flagged against the given key-column names. *)
Definition table_info (r : tables_row) : TableInfo :=
  (VStr (table_schema r), VStr (table_name r)).

Definition column_info (keys : list value) (c : columns_row) : ColumnInfo :=
  mkColumnInfo (VStr (column_name c)) (VStr (c_data_type c))
               (bool_decide (VStr (column_name c) ∈ keys)).

End SnowflakeEngine.
Export SnowflakeEngine.

(** The account as a driver: catalog statements are answered from the
    information schema and leave the account unchanged; any other text
    is rejected. *)
#[global] Instance snowflake_driver : Driver account := fun a sql params =>
  (match parse_statement sql with
   | Some st => run_statement a st params
   | None => Raise (ProgrammingError "SQL compilation error")
   end, a).

(** A session on an account, before any cursor is opened. *)
Definition connect_to {B} (b : B) : session B := Session b fresh_cursor.

(** ** Sample backends *)

Module Samples.

(** A scripted connection, as a test double would provide: each
    executed statement receives the next prepared answer. *)
Definition scripted : Type := list (result result_set).

(** Three rows of one column, with a descriptor and no row count. *)
Definition three_rows : result_set :=
  ResultSet (Some [ColumnDescriptor "N" 0])
            [[VInt 1]; [VInt 2]; [VInt 3]] None.

(** The answer to a DDL statement: no descriptor, no rows, no row
    count. *)
Definition ddl_answer : result_set := ResultSet None [] None.

(** One database with two schemas and a keyed table. *)
Definition demo_catalog : catalog :=
  Catalog
    [ TablesRow "SALES" "ORDERS" "BASE TABLE";
      TablesRow "SALES" "V_ORDERS" "VIEW";
      TablesRow "INFORMATION_SCHEMA" "TABLES" "BASE TABLE";
      TablesRow "PUBLIC" "USERS" "BASE TABLE";
      TablesRow "SALES" "CUSTOMERS" "BASE TABLE" ]
    [ ColumnsRow "PUBLIC" "USERS" "EMAIL" "TEXT" 2;
      ColumnsRow "PUBLIC" "USERS" "ID" "NUMBER" 1;
      ColumnsRow "SALES" "ORDERS" "ID" "NUMBER" 1 ]
    [ ConstraintsRow "PK_USERS" "PUBLIC" "USERS" "PRIMARY KEY" ]
    [ KeyColumnRow "PK_USERS" "PUBLIC" "ID" ].

(** An account holding that database, whose engine scans relations
    back to front. *)
Definition demo_account : account :=
  Account {[ "ANALYTICS" := demo_catalog ]} (Some "ANALYTICS")
          (fun _ l => rev l)
          (fun _ l => Permutation_sym (Permutation_rev l)).

End Samples.
Export Samples.

#[global] Instance scripted_driver : Driver scripted := fun b _ _ =>
  match b with
  | r :: b' => (r, b')
  | [] => (Raise (DatabaseError "no prepared answer"), [])
  end.

(** ** The rest of the adapter: identity, connecting and the other
       catalog methods *)

Module PySorted.

(** The exception [sorted] raises on values it cannot compare. *)
Inductive type_error : Type :=
| TypeError (msg : string).

(** The elements of a set built by inserting the values of [l] in
    turn: a value equal, under Python equality, to one already present
    is not inserted again. *)
Fixpoint set_insert_all (seen : list value) (l : list value) : list value :=
  match l with
  | [] => []
  | v :: l' =>
      if decide (eq_key v ∈ seen) then set_insert_all seen l'
      else v :: set_insert_all (eq_key v :: seen) l'
  end.

Definition set_of (l : list value) : list value := set_insert_all [] l.

Definition is_str (v : value) : bool :=
  match v with
  | VStr _ => true
  | _ => false
  end.

Definition is_num (v : value) : bool :=
  match v with
  | VInt _ | VBool _ => true
  | _ => false
  end.

Definition num (v : value) : Z :=
  match v with
  | VInt z => z
  | VBool b => Z.b2z b
  | _ => 0%Z
  end.

(** The order [sorted] sorts by: strings by code points, numbers by
    value.  Between a string and anything else, or with [None], Python
    has no order; the cases are filled in (anything else before a
    string) so that the relation is total, and [sorted_of_set] never
    sorts such a mix. *)
Definition value_le (v1 v2 : value) : Prop :=
  match v1, v2 with
  | VStr a, VStr b => String.le a b
  | VStr _, _ => False
  | _, VStr _ => True
  | _, _ => (num v1 <= num v2)%Z
  end.

End PySorted.
Export PySorted.

#[global] Instance value_le_dec v1 v2 : Decision (value_le v1 v2).
Proof. destruct v1, v2; simpl; apply _. Defined.

Module PySortedList.

(** [sorted(list(s))] for the set [s] whose elements are [l], pairwise
    different under Python equality: up to one element nothing is
    compared; otherwise the elements must be all strings or all
    numbers, or a comparison raises [TypeError]. *)
Definition sorted_of_set (l : list value) : type_error + list value :=
  match l with
  | [] | [_] => inr l
  | _ =>
      if forallb is_str l || forallb is_num l
      then inr (merge_sort value_le l)
      else inl (TypeError "'<' not supported between instances")
  end.

End PySortedList.
Export PySortedList.

Module Identity.

(** The capability descriptor of the variant. *)
Definition badge_label : string := "SNOW".
Definition name : string := "Snowflake".
Definition driver_import_names : list string := ["snowflake.connector"].
Definition supports_multiple_databases : bool := true.
Definition supports_stored_procedures : bool := true.

End Identity.

Module Connection.

(** Modelled from the spec: [ConnectionConfig], declared in the absent
    [config] module, holds the network and authentication fields and
    an open options mapping; [extras] is [None] when the attribute is
    missing or holds [None]. *)
Record ConnectionConfig : Type := mkConnectionConfig {
  server : value;
  username : value;
  password : value;
  database : value;
  extras : option (gmap string value)
}.

(** [getattr(config, "extras", {}) or {}] *)
Definition extras_of (config : ConnectionConfig) : gmap string value :=
  default ∅ (extras config).

(** [connect_args[key] = extras[key]] under [if key in extras]. *)
Definition copy_if_present (key : string) (extras : gmap string value)
    (connect_args : gmap string value) : gmap string value :=
  match extras !! key with
  | Some v => <[key := v]> connect_args
  | None => connect_args
  end.

(** The keyword arguments [connect] builds. *)
Definition connect_args (config : ConnectionConfig) : gmap string value :=
  let connect_args : gmap string value :=
    <["database" := database config]>
      (<["account" := server config]>
         (<["password" := password config]>
            (<["user" := username config]> ∅))) in
  let extras := extras_of config in
  let connect_args := copy_if_present "warehouse" extras connect_args in
  let connect_args := copy_if_present "schema" extras connect_args in
  let connect_args := copy_if_present "role" extras connect_args in
  connect_args.

Section connect.
(** [import_driver_module] belongs to the absent [base] module: it is
    given the module name, the driver name, the extra and the package,
    and returns the driver module, here its [connect] function, or
    raises. *)
Context {C : Type}
        (import_driver_module :
           string -> string -> string -> string ->
           result (gmap string value -> result C)).


End connect.

End Connection.

Module SnowflakeInspector.

(** Modelled from the spec: [SequenceInfo], declared in the absent
    [base] module, carries at least a name. *)
Record SequenceInfo : Type := mkSequenceInfo { sequence_name : value }.

Section methods.
Context {B : Type} `{!Driver B}.

(** [get_databases] *)
Definition get_databases : M B (list value) :=
  conn_cursor;;
  cursor_execute "SHOW DATABASES" None;;
  rows ← cursor_fetchall;
  lift (mapM (fun row : row => index row 1) rows).

(** The two statements of [get_views]. *)
Definition show_views_sql (database : option string) : string :=
  let query := "SHOW VIEWS" in
  match str_truthy database with
  | Some d => query +:+ " IN DATABASE " +:+ quote_identifier d
  | None => query
  end.

Definition views_sql (database : option string) : string :=
  let sql := "SELECT table_schema, table_name FROM information_schema.views" in
  let sql :=
    match str_truthy database with
    | Some d =>
        "SELECT table_schema, table_name FROM " +:+ quote_identifier d
          +:+ ".information_schema.views"
    | None => sql
    end in
  sql +:+ " WHERE table_schema != 'INFORMATION_SCHEMA' ORDER BY table_schema, table_name".

(** [get_views] *)
Definition get_views (database : option string) : M B (list TableInfo) :=
  conn_cursor;;
  cursor_execute (show_views_sql database) None;;
  cursor_execute (views_sql database) None;;
  rows ← cursor_fetchall;
  lift (mapM (fun row : row =>
                a ← index row 0; b ← index row 1; mret (a, b)) rows).

(** The statement of [get_procedures]. *)
Definition procedures_sql (database : option string) : string :=
  let db_prefix := db_prefix_of database in
  "SELECT routine_name FROM " +:+ db_prefix +:+
  "information_schema.routines WHERE routine_type = 'PROCEDURE' AND routine_schema != 'INFORMATION_SCHEMA' ORDER BY routine_name".

(** [get_procedures]; a [TypeError] raised by [sorted] is the left
    injection of the value returned. *)
Definition get_procedures (database : option string)
    : M B (type_error + list value) :=
  conn_cursor;;
  cursor_execute (procedures_sql database) None;;
  rows ← cursor_fetchall;
  names ← lift (mapM (fun row : row => index row 0) rows);
  mret (sorted_of_set (set_of names)).

(** The statement of [get_sequences]. *)
Definition sequences_sql (database : option string) : string :=
  let db_prefix := db_prefix_of database in
  "SELECT sequence_name FROM " +:+ db_prefix +:+
  "information_schema.sequences WHERE sequence_schema != 'INFORMATION_SCHEMA'".

(** [get_sequences] *)
Definition get_sequences (database : option string) : M B (list SequenceInfo) :=
  conn_cursor;;
  cursor_execute (sequences_sql database) None;;
  rows ← cursor_fetchall;
  lift (mapM (fun row : row => n ← index row 0; mret (mkSequenceInfo n)) rows).

End methods.

End SnowflakeInspector.
Export SnowflakeInspector.

(** ** A connection that keeps a record of what is sent *)

Module Recording.

(** A backend together with the statements executed on it so far, each
    with its bind parameters, oldest first. *)
Definition recorded (B : Type) : Type :=
  (B * list (string * option (list value)))%type.

Definition sent {B} (s : session (recorded B))
    : list (string * option (list value)) :=
  (conn s).2.

End Recording.
Export Recording.

#[global] Instance recording_driver {B : Type} `{!Driver B}
    : Driver (recorded B) := fun rb sql params =>
  let '(r, b') := driver_execute rb.1 sql params in
  (r, (b', rb.2 ++ [(sql, params)])).

(** * Properties *)

(** ** Strings *)

Lemma app_String a s t : String a s +:+ t = String a (s +:+ t).
Proof. reflexivity. Qed.

Lemma app_empty_l s : "" +:+ s = s.
Proof. reflexivity. Qed.

Lemma app_assoc_str s t u : (s +:+ t) +:+ u = s +:+ (t +:+ u).
Proof.
  induction s as [|a s IH]; [done|].
  by rewrite !app_String, IH.
Qed.

Lemma dquote_eqb : Ascii.eqb dquote dquote = true.
Proof. reflexivity. Qed.

Lemma quote_identifier_unfold name :
  quote_identifier name = String dquote (escaped name +:+ String dquote "").
Proof. reflexivity. Qed.

Lemma scan_quoted_escaped name rest :
  not_quote_led rest ->
  scan_quoted (escaped name +:+ String dquote rest) = Some (name, rest).
Proof.
  intros Hrest. unfold escaped.
  induction name as [|a name IH]; simpl.
  - destruct rest as [|b rest]; [done|]. simpl in Hrest. by rewrite Hrest.
  - destruct (Ascii.eqb a dquote) eqn:Ha.
    + apply Ascii.eqb_eq in Ha as ->.
      rewrite !app_String, app_empty_l. simpl.
      rewrite ?dquote_eqb. by rewrite IH.
    + rewrite app_String. simpl. rewrite Ha. by rewrite IH.
Qed.

Lemma unquote_quote_identifier name :
  unquote_identifier (quote_identifier name) = Some name.
Proof.
  rewrite quote_identifier_unfold. simpl. rewrite ?dquote_eqb.
  by rewrite scan_quoted_escaped.
Qed.

Lemma drop_last_quote_app s : drop_last_quote (s +:+ String dquote "") = Some s.
Proof.
  induction s as [|a s IH]; [done|].
  rewrite app_String. simpl. rewrite IH.
  destruct s; reflexivity.
Qed.

Lemma strip_outer_quotes_quote_identifier name :
  strip_outer_quotes (quote_identifier name) = Some (escaped name).
Proof.
  rewrite quote_identifier_unfold. simpl. rewrite ?dquote_eqb.
  apply drop_last_quote_app.
Qed.

Lemma collapse_escaped name : collapse_doubled_quotes (escaped name) = name.
Proof.
  unfold escaped. induction name as [|a name IH]; [done|].
  simpl. destruct (Ascii.eqb a dquote) eqn:Ha.
  - apply Ascii.eqb_eq in Ha as ->.
    rewrite !app_String, app_empty_l. simpl. rewrite ?dquote_eqb.
    by rewrite IH.
  - simpl. rewrite Ha. by rewrite IH.
Qed.

(** Quoting is injective: two names never share a quoted form. *)
Lemma quote_identifier_inj n1 n2 :
  quote_identifier n1 = quote_identifier n2 -> n1 = n2.
Proof.
  intros Heq. apply (inj Some).
  by rewrite <- !unquote_quote_identifier, Heq.
Qed.

(** On a name without quote characters escaping changes nothing. *)
Lemma escaped_quote_free s : quote_free s -> escaped s = s.
Proof.
  unfold quote_free, escaped. induction s as [|a s IH]; [done|].
  simpl. destruct (Ascii.eqb a dquote) eqn:Ha.
  - apply Ascii.eqb_eq in Ha as ->.
    destruct (ascii_dec dquote dquote); [|done].
    by destruct s.
  - intros [_ Hs]%orb_false_elim. by rewrite IH.
Qed.

Lemma str_count_escaped name :
  str_count dquote (escaped name) = 2 * str_count dquote name.
Proof.
  unfold escaped. induction name as [|a name IH]; [done|].
  simpl. destruct (Ascii.eqb a dquote) eqn:Ha.
  - rewrite !app_String, app_empty_l. simpl. rewrite ?dquote_eqb, IH. lia.
  - simpl. rewrite Ha, IH. lia.
Qed.

(** ** [quote_identifier] *)

(** C2. For every name, [quote_identifier] doubles each embedded quote
    (the escaped body holds twice the quotes of the name) and wraps the
    body in quotes; dropping the outer quotes and collapsing each
    doubled quote gives the name back, as does reading the result as
    one quoted identifier; and the column name first-quote-name is
    quoted as quote first quote quote name quote. *)
Theorem quote_identifier_roundtrip (name : string) :
  quote_identifier name = String dquote (escaped name +:+ String dquote "")
  ∧ str_count dquote (escaped name) = 2 * str_count dquote name
  ∧ collapse_doubled_quotes <$> strip_outer_quotes (quote_identifier name)
    = Some name
  ∧ unquote_identifier (quote_identifier name) = Some name
  ∧ quote_identifier ("first" +:+ String dquote "name")
    = String dquote
        ("first" +:+ String dquote (String dquote ("name" +:+ String dquote ""))).
Proof.
  split_and!.
  - apply quote_identifier_unfold.
  - apply str_count_escaped.
  - rewrite strip_outer_quotes_quote_identifier. simpl.
    by rewrite collapse_escaped.
  - apply unquote_quote_identifier.
  - reflexivity.
Qed.

(** ** [build_select_query] *)

Lemma str_or_default schema :
  schema ≠ Some "" -> str_or schema "PUBLIC" = default default_schema schema.
Proof. by destruct schema as [[|a s]|]. Qed.

(** When neither name holds a quote character (and the schema, if
    given, is not empty) the statement built is the one with every
    component passed through [quote_identifier]. *)
Lemma build_select_query_quote_free table limit database schema :
  quote_free table ->
  quote_free (default default_schema schema) ->
  schema ≠ Some "" ->
  build_select_query table limit database schema
  = build_select_query_quoted table limit schema.
Proof.
  intros Ht Hs Hne.
  unfold build_select_query, build_select_query_quoted.
  rewrite !quote_identifier_unfold, (str_or_default _ Hne).
  rewrite (escaped_quote_free _ Ht), (escaped_quote_free _ Hs).
  by rewrite !app_String, !app_empty_l, !app_assoc_str.
Qed.

(** C1. On the table name a-quote-b the statement built interpolates
    the name as it is, so it is not the statement in which the name
    went through [quote_identifier]. *)
Theorem build_select_query_embedded_quote :
  let table := "a" +:+ String dquote "b" in
  build_select_query table 10 None (Some "sales")
  = "SELECT * FROM " +:+ String dquote "sales" +:+ String dquote "."
    +:+ String dquote "a" +:+ String dquote "b" +:+ String dquote " LIMIT 10"
  ∧ build_select_query_quoted table 10 (Some "sales")
  = "SELECT * FROM " +:+ String dquote "sales" +:+ String dquote "."
    +:+ String dquote "a" +:+ String dquote (String dquote "b")
    +:+ String dquote " LIMIT 10"
  ∧ build_select_query table 10 None (Some "sales")
    ≠ build_select_query_quoted table 10 (Some "sales").
Proof. by vm_compute. Qed.

(** Read back, the interpolated name ends at its embedded quote: the
    identifier is a, and the rest of the name has become statement
    text. *)
Example embedded_quote_closes_identifier :
  scan_quoted ("a" +:+ String dquote "b" +:+ String dquote " LIMIT 10")
  = Some ("a", "b" +:+ String dquote " LIMIT 10").
Proof. reflexivity. Qed.

(** C10. The statement built does not depend on the database argument:
    any two database values give the same text, and a database name
    occurs in the text exactly when it occurs in the text built with no
    database at all. *)
Theorem build_select_query_ignores_database
    (table : string) (limit : Z) (schema : option string) :
  (forall d1 d2 : option string,
     build_select_query table limit d1 schema
     = build_select_query table limit d2 schema)
  ∧ (forall d : string,
       occurs d (build_select_query table limit (Some d) schema)
       = occurs d (build_select_query table limit None schema)).
Proof. split; reflexivity. Qed.

(** The database name is not interpolated, yet it can occur in the
    text: with the schema omitted the text names the schema PUBLIC, so
    a database called PUBLIC occurs in it.  Hence the name is not
    absent from the text for every input. *)
Lemma build_select_query_database_name_can_occur :
  occurs "PUBLIC" (build_select_query "t" 1 (Some "PUBLIC") None) = true
  ∧ ¬ (forall (table : string) (limit : Z) (d : string)
              (schema : option string),
         occurs d (build_select_query table limit (Some d) schema) = false).
Proof.
  split; [reflexivity|].
  intros Habsent. by specialize (Habsent "t" 1%Z "PUBLIC" None).
Qed.

(** ** Running methods on a session *)

Section generic_driver.
Context {B : Type} `{!Driver B}.

Lemma bind_Ok {A C} (m : M B A) (f : A -> M B C) s a s' :
  m s = (Ok a, s') -> (m ≫= f) s = f a s'.
Proof. intros Hm. unfold mbind, M_bind. by rewrite Hm. Qed.

Lemma bind_Raise {A C} (m : M B A) (f : A -> M B C) s e s' :
  m s = (Raise e, s') -> (m ≫= f) s = (Raise e, s').
Proof. intros Hm. unfold mbind, M_bind. by rewrite Hm. Qed.

Lemma cursor_execute_Ok sql params (s : session B) rs b :
  driver_execute (conn s) sql params = (Ok rs, b) ->
  cursor_execute sql params s = (Ok (), Session b (cursor_of rs)).
Proof. intros Hx. unfold cursor_execute. by rewrite Hx. Qed.

Lemma cursor_execute_Raise sql params (s : session B) e b :
  driver_execute (conn s) sql params = (Raise e, b) ->
  cursor_execute sql params s = (Raise e, Session b (cur s)).
Proof. intros Hx. unfold cursor_execute. by rewrite Hx. Qed.

(** The column names [execute_query] computes from a descriptor. *)
Lemma columns_of_description (d : option (list column_descriptor)) :
  match d with
  | Some (c :: cs) => col_name <$> (c :: cs)
  | _ => []
  end = col_name <$> default [] d.
Proof. by destruct d as [[|c cs]|]. Qed.

(** What [execute_query] does once the statement has run, for a row
    ceiling that is not negative. *)
Lemma execute_query_limited query (k : Z) (s : session B) rs b :
  driver_execute (conn s) query None = (Ok rs, b) ->
  (0 <= k)%Z ->
  execute_query query (Some k) s
  = (Ok (col_name <$> default [] (rs_description rs),
         take (Z.to_nat k) (rs_rows rs),
         bool_decide (k < len (rs_rows rs))%Z),
     Session b {| description := rs_description rs;
                  pending := drop (Z.to_nat (k + 1)) (rs_rows rs);
                  rowcount := rs_rowcount rs |}).
Proof.
  intros Hx Hk. unfold execute_query.
  rewrite (bind_Ok _ _ _ () (Session (conn s) fresh_cursor)) by done.
  rewrite (bind_Ok _ _ _ _ _
             (cursor_execute_Ok _ _ (Session (conn s) fresh_cursor) _ _ Hx)).
  unfold mbind, M_bind, cursor_description, cursor_fetchmany, mret, M_ret.
  simpl. rewrite columns_of_description.
  destruct (k + 1 <? 0)%Z eqn:Hneg; [lia|]. simpl.
  unfold len, slice_to. rewrite length_take.
  destruct (decide (k < Z.of_nat (length (rs_rows rs)))%Z) as [Hlt|Hge].
  - rewrite (bool_decide_eq_true_2 _ Hlt).
    rewrite (proj2 (Z.ltb_lt _ _)) by lia.
    rewrite (proj2 (Z.leb_le _ _)) by lia.
    rewrite take_take.
    by replace (Z.to_nat k `min` Z.to_nat (k + 1)) with (Z.to_nat k) by lia.
  - rewrite (bool_decide_eq_false_2 _ Hge).
    rewrite (proj2 (Z.ltb_ge _ _)) by lia.
    by rewrite !take_ge by lia.
Qed.

Lemma execute_query_unlimited query (s : session B) rs b :
  driver_execute (conn s) query None = (Ok rs, b) ->
  execute_query query None s
  = (Ok (col_name <$> default [] (rs_description rs), rs_rows rs, false),
     Session b {| description := rs_description rs;
                  pending := [];
                  rowcount := rs_rowcount rs |}).
Proof.
  intros Hx. unfold execute_query.
  rewrite (bind_Ok _ _ _ () (Session (conn s) fresh_cursor)) by done.
  rewrite (bind_Ok _ _ _ _ _
             (cursor_execute_Ok _ _ (Session (conn s) fresh_cursor) _ _ Hx)).
  unfold mbind, M_bind, cursor_description, cursor_fetchall, mret, M_ret.
  simpl. by rewrite columns_of_description.
Qed.

End generic_driver.

(** ** [execute_query] and [execute_non_query] *)

(** C3. Once the statement has produced a result set of [n] rows and
    the ceiling [k] is not negative: with [n > k] exactly [k] rows (the
    first [k]) come back with the truncation flag set; with [n <= k]
    all rows come back with the flag clear; at most [k + 1] rows are
    taken off the cursor; and without a ceiling all rows come back with
    the flag clear. *)
Theorem execute_query_row_ceiling {B : Type} `{!Driver B}
    (query : string) (k : Z) (s : session B) (rs : result_set) (b : B) :
  driver_execute (conn s) query None = (Ok rs, b) ->
  (0 <= k)%Z ->
  let n := len (rs_rows rs) in
  let limited := execute_query query (Some k) s in
  ((k < n)%Z ->
     ∃ cols rows, limited.1 = Ok (cols, rows, true)
                  ∧ len rows = k
                  ∧ rows = take (Z.to_nat k) (rs_rows rs))
  ∧ ((n <= k)%Z -> ∃ cols, limited.1 = Ok (cols, rs_rows rs, false))
  ∧ (Z.of_nat (fetched_from (rs_rows rs) (cur limited.2)) <= k + 1)%Z
  ∧ (∃ cols, outcome (execute_query query None) s
             = Ok (cols, rs_rows rs, false)).
Proof.
  intros Hx Hk n limited. subst limited.
  rewrite (execute_query_limited _ _ _ _ _ Hx Hk).
  unfold outcome. rewrite (execute_query_unlimited _ _ _ _ Hx). simpl.
  split_and!.
  - intros Hlt. rewrite bool_decide_eq_true_2 by done.
    eexists _, _. split_and!; [done| |done].
    unfold len. rewrite length_take. subst n. unfold len in Hlt. lia.
  - intros Hle. eexists. rewrite bool_decide_eq_false_2 by lia.
    rewrite take_ge; [done|]. subst n. unfold len in Hle. lia.
  - unfold fetched_from. simpl. rewrite length_drop. lia.
  - by eexists.
Qed.

Lemma execute_query_row_ceiling_witness :
  driver_execute (conn (connect_to [Ok three_rows])) "SELECT n FROM t" None
  = (Ok three_rows, [])
  ∧ (0 <= 2)%Z
  ∧ (∃ cols rows,
       outcome (execute_query "SELECT n FROM t" (Some 2%Z))
               (connect_to [Ok three_rows])
       = Ok (cols, rows, true)
       ∧ len rows = 2%Z
       ∧ rows = take 2 (rs_rows three_rows)).
Proof.
  split; [reflexivity|]. split; [lia|].
  apply (execute_query_row_ceiling "SELECT n FROM t" 2
           (connect_to [Ok three_rows]) three_rows [] eq_refl).
  - lia.
  - by vm_compute.
Defined.

(** C8. Once the statement has run, with any ceiling that is not
    negative or none: when the cursor has no descriptor the column
    names returned are the empty sequence; when it has one they are the
    descriptor's names in order. *)
Theorem execute_query_columns {B : Type} `{!Driver B}
    (query : string) (max_rows : option Z) (s : session B)
    (rs : result_set) (b : B) :
  driver_execute (conn s) query None = (Ok rs, b) ->
  row_ceiling max_rows ->
  (rs_description rs = None ->
     ∃ rows truncated,
       outcome (execute_query query max_rows) s = Ok ([], rows, truncated))
  ∧ (forall ds, rs_description rs = Some ds ->
       ∃ rows truncated,
         outcome (execute_query query max_rows) s
         = Ok (col_name <$> ds, rows, truncated)).
Proof.
  intros Hx Hmax. unfold outcome.
  assert (∃ rows truncated s',
            execute_query query max_rows s
            = (Ok (col_name <$> default [] (rs_description rs),
                   rows, truncated), s')) as (rows & t & s' & ->).
  { destruct max_rows as [k|].
    - rewrite (execute_query_limited _ _ _ _ _ Hx Hmax).
      by eexists _, _, _.
    - rewrite (execute_query_unlimited _ _ _ _ Hx). by eexists _, _, _. }
  split.
  - intros ->. by exists rows, t.
  - intros ds ->. by exists rows, t.
Qed.

Lemma execute_query_columns_witness :
  driver_execute (conn (connect_to [Ok ddl_answer])) "CREATE TABLE t (n INT)" None
  = (Ok ddl_answer, [])
  ∧ row_ceiling (Some 5%Z)
  ∧ (∃ rows truncated,
       outcome (execute_query "CREATE TABLE t (n INT)" (Some 5%Z))
               (connect_to [Ok ddl_answer])
       = Ok ([], rows, truncated)).
Proof.
  split; [reflexivity|]. split; [simpl; lia|].
  apply (execute_query_columns "CREATE TABLE t (n INT)" (Some 5%Z)
           (connect_to [Ok ddl_answer]) ddl_answer [] eq_refl);
    [simpl; lia|reflexivity].
Defined.

(** C9. Once the statement has run, [execute_non_query] returns the
    row count the cursor reports when there is one, and -1 when the
    cursor reports none. *)
Theorem execute_non_query_rowcount {B : Type} `{!Driver B}
    (query : string) (s : session B) (rs : result_set) (b : B) :
  driver_execute (conn s) query None = (Ok rs, b) ->
  (forall n, rs_rowcount rs = Some n ->
     outcome (execute_non_query query) s = Ok n)
  ∧ (rs_rowcount rs = None ->
     outcome (execute_non_query query) s = Ok (-1)%Z).
Proof.
  intros Hx. unfold outcome, execute_non_query.
  rewrite (bind_Ok _ _ _ () (Session (conn s) fresh_cursor)) by done.
  rewrite (bind_Ok _ _ _ _ _
             (cursor_execute_Ok _ _ (Session (conn s) fresh_cursor) _ _ Hx)).
  unfold mbind, M_bind, cursor_rowcount, mret, M_ret. simpl.
  split; [intros n ->|intros ->]; done.
Qed.

Lemma execute_non_query_rowcount_witness :
  driver_execute (conn (connect_to [Ok ddl_answer])) "DROP TABLE t" None
  = (Ok ddl_answer, [])
  ∧ outcome (execute_non_query "DROP TABLE t") (connect_to [Ok ddl_answer])
    = Ok (-1)%Z.
Proof.
  split; [reflexivity|].
  apply (execute_non_query_rowcount "DROP TABLE t"
           (connect_to [Ok ddl_answer]) ddl_answer [] eq_refl).
  reflexivity.
Defined.

(** ** [get_indexes] and [get_triggers] *)

(** C7. On every session and for every database argument,
    [get_indexes] and [get_triggers] return the empty sequence, raise
    nothing and leave the session as it was. *)
Theorem get_indexes_get_triggers_empty {B : Type}
    (database : option string) (s : session B) :
  get_indexes database s = (Ok [], s)
  ∧ get_triggers database s = (Ok [], s).
Proof. split; reflexivity. Qed.

(** ** The statement texts of the catalog methods, as the engine reads
       them *)

Lemma strip_prefix_app p s : strip_prefix p (p +:+ s) = Some s.
Proof.
  induction p as [|a p IH]; [done|].
  rewrite app_String. simpl. by rewrite Ascii.eqb_refl.
Qed.

Lemma parse_qualifier_db_prefix database rest :
  not_quote_led rest ->
  parse_qualifier (db_prefix_of database +:+ rest)
  = Some (str_truthy database, rest).
Proof.
  intros Hrest. unfold db_prefix_of.
  destruct (str_truthy database) as [d|].
  - rewrite quote_identifier_unfold, !app_String, !app_assoc_str.
    rewrite app_String, app_empty_l.
    unfold parse_qualifier. rewrite dquote_eqb.
    by rewrite scan_quoted_escaped.
  - rewrite app_empty_l. destruct rest as [|b rest]; [done|].
    simpl in Hrest. unfold parse_qualifier. by rewrite Hrest.
Qed.

Lemma parse_tables_sql database :
  parse_statement (tables_head +:+ db_prefix_of database +:+ tables_tail)
  = Some (SelectBaseTables (str_truthy database)).
Proof.
  unfold parse_statement, parse_tables.
  rewrite strip_prefix_app. simpl.
  rewrite parse_qualifier_db_prefix by reflexivity. simpl.
  by rewrite ?String.eqb_refl.
Qed.

Lemma parse_columns_sql database :
  parse_statement (columns_sql (db_prefix_of database))
  = Some (SelectColumns (str_truthy database)).
Proof.
  unfold parse_statement.
  assert (parse_tables (columns_sql (db_prefix_of database)) = None) as ->
    by reflexivity.
  unfold parse_columns.
  change (columns_sql (db_prefix_of database))
    with (columns_head +:+ db_prefix_of database +:+ columns_tail).
  rewrite strip_prefix_app. simpl.
  rewrite parse_qualifier_db_prefix by reflexivity. simpl.
  by rewrite ?String.eqb_refl.
Qed.

Lemma parse_pk_sql database :
  parse_statement (pk_sql (db_prefix_of database))
  = Some (SelectPrimaryKeyColumns (str_truthy database) (str_truthy database)).
Proof.
  unfold parse_statement.
  assert (parse_tables (pk_sql (db_prefix_of database)) = None) as ->
    by reflexivity.
  assert (parse_columns (pk_sql (db_prefix_of database)) = None) as ->
    by reflexivity.
  unfold parse_pk.
  change (pk_sql (db_prefix_of database))
    with (pk_head +:+ db_prefix_of database +:+ pk_middle
          +:+ db_prefix_of database +:+ pk_tail).
  rewrite strip_prefix_app. simpl.
  rewrite parse_qualifier_db_prefix by reflexivity. simpl.
  rewrite ?strip_prefix_app, ?app_empty_l.
  rewrite parse_qualifier_db_prefix by reflexivity. simpl.
  by rewrite ?String.eqb_refl.
Qed.

(** ** The orders behind ORDER BY *)

#[global] Instance tables_le_trans : Transitive tables_le.
Proof.
  intros r1 r2 r3. unfold tables_le.
  destruct (decide (table_schema r1 = table_schema r2)) as [E12|N12],
           (decide (table_schema r2 = table_schema r3)) as [E23|N23],
           (decide (table_schema r1 = table_schema r3)) as [E13|N13];
    intros H12 H23; try congruence.
  - by etrans.
  - destruct N12. apply (anti_symm String.le); [done|]. by rewrite E13.
  - by etrans.
Qed.

#[global] Instance tables_le_total : Total tables_le.
Proof.
  intros r1 r2. unfold tables_le.
  destruct (decide (table_schema r1 = table_schema r2)) as [E|N],
           (decide (table_schema r2 = table_schema r1)) as [E'|N'];
    try congruence; apply (total String.le).
Qed.

#[global] Instance ordinal_le_trans : Transitive ordinal_le.
Proof. intros c1 c2 c3. unfold ordinal_le. lia. Qed.

#[global] Instance ordinal_le_total : Total ordinal_le.
Proof. intros c1 c2. unfold ordinal_le. lia. Qed.

(** ** List comprehensions over well-shaped rows *)

Lemma mapM_fmap_Ok {A C D} (f : C -> result D) (g : A -> C) (h : A -> D)
    (l : list A) :
  (forall x, f (g x) = Ok (h x)) -> mapM f (g <$> l) = Ok (h <$> l).
Proof.
  intros Hf. induction l as [|x l IH]; [done|].
  change (mapM f (g <$> x :: l))
    with (f (g x) ≫= fun y => mapM f (g <$> l) ≫= fun k => mret (y :: k)).
  by rewrite Hf, IH.
Qed.

(** ** The engine's answers to the catalog statements *)

Section snowflake.
Implicit Types (a : account) (s : session account) (cat : catalog).

Lemma driver_execute_tables a database :
  driver_execute a
    ("SELECT table_schema, table_name FROM " +:+ db_prefix_of database +:+
     "information_schema.tables WHERE table_type = 'BASE TABLE' AND table_schema != 'INFORMATION_SCHEMA' ORDER BY table_schema, table_name")
    None
  = (run_statement a (SelectBaseTables (str_truthy database)) None, a).
Proof.
  unfold driver_execute, snowflake_driver.
  pose proof (parse_tables_sql database) as Hp.
  unfold tables_head, tables_tail in Hp. by rewrite Hp.
Qed.

(** [get_tables_via_info_schema] against the engine: the database is
    resolved, and the base tables outside INFORMATION_SCHEMA come back
    as pairs in the order of the statement's ORDER BY. *)
Lemma get_tables_via_info_schema_snowflake database s :
  outcome (get_tables_via_info_schema database) s
  = (cat ← resolve (conn s) (str_truthy database);
     mret (table_info <$> select_base_tables (conn s) cat)).
Proof.
  unfold outcome, get_tables_via_info_schema.
  rewrite (bind_Ok _ _ _ () (Session (conn s) fresh_cursor)) by done.
  pose proof (driver_execute_tables (conn s) database) as Hx.
  unfold run_statement in Hx.
  destruct (resolve (conn s) (str_truthy database)) as [cat|e]; simpl in Hx.
  - rewrite (bind_Ok _ _ _ _ _
               (cursor_execute_Ok _ _ (Session (conn s) fresh_cursor) _ _ Hx)).
    unfold mbind at 1, M_bind at 1, cursor_fetchall, lift. simpl.
    by rewrite (mapM_fmap_Ok _ _ table_info).
  - by rewrite (bind_Raise _ _ _ _ _
                  (cursor_execute_Raise _ _ (Session (conn s) fresh_cursor)
                     _ _ Hx)).
Qed.

End snowflake.

(** ** [get_tables] *)

Lemma class_namespace_get_tables {B : Type} `{!Driver B} :
  class_namespace !! "get_tables"
  = Some (get_tables_delegating (B:=B)).
Proof. unfold class_namespace, class_body. simpl. apply lookup_insert_eq. Qed.

Lemma get_tables_unfold {B : Type} `{!Driver B} (database : option string) :
  get_tables database = get_tables_via_info_schema (B:=B) database.
Proof. unfold get_tables. by rewrite class_namespace_get_tables. Qed.

(** The binding that is replaced is a different method: on the same
    answer it reads other positions of each row. *)
Example get_tables_show_tables_differs :
  let answer := ResultSet None [[VStr "a"; VStr "b"; VStr "c"; VStr "d"]] None in
  outcome (get_tables_show_tables None) (connect_to [Ok answer])
  = Ok [(VStr "d", VStr "b")]
  ∧ outcome (get_tables None) (connect_to [Ok answer])
    = Ok [(VStr "a", VStr "b")].
Proof. rewrite get_tables_unfold. split; reflexivity. Qed.

(** C5. The name [get_tables] is bound last to the delegating
    definition; on every driver, session and database argument the
    effective [get_tables] does what [get_tables_via_info_schema] does;
    and against the engine both return the (schema, name) pairs of the
    base tables outside INFORMATION_SCHEMA of the addressed database,
    or the engine's error when the database cannot be resolved. *)
Theorem get_tables_is_info_schema_route :
  (forall (B : Type) (D : Driver B),
     class_namespace !! "get_tables" = Some (get_tables_delegating (B:=B)))
  ∧ (forall (B : Type) (D : Driver B) (database : option string)
            (s : session B),
       get_tables database s = get_tables_via_info_schema database s)
  ∧ (forall (database : option string) (s : session account),
       let listed :=
         cat ← resolve (conn s) (str_truthy database);
         mret (table_info <$>
                 merge_sort tables_le
                   (filter base_table_outside_info_schema
                      (scan (conn s) _ (info_tables cat)))) in
       outcome (get_tables database) s = listed
       ∧ outcome (get_tables_via_info_schema database) s = listed).
Proof.
  split_and!.
  - intros B D. apply class_namespace_get_tables.
  - intros B D database s. by rewrite get_tables_unfold.
  - intros database s listed. rewrite get_tables_unfold.
    split; apply get_tables_via_info_schema_snowflake.
Qed.

(** C6. Against the engine, with a database argument that resolves (or
    none), [get_tables] returns the pairs of a list of catalog rows
    that holds exactly the rows of [information_schema.tables] whose
    type is BASE TABLE and whose schema is not INFORMATION_SCHEMA, in
    ascending order of schema and then name. *)
Theorem get_tables_base_tables_sorted
    (database : option string) (s : session account) (cat : catalog) :
  resolve (conn s) (str_truthy database) = Ok cat ->
  ∃ rs : list tables_row,
    outcome (get_tables database) s = Ok (table_info <$> rs)
    ∧ (forall r, r ∈ rs ↔
                 r ∈ info_tables cat
                 ∧ table_type r = "BASE TABLE"
                 ∧ table_schema r ≠ "INFORMATION_SCHEMA")
    ∧ StronglySorted tables_le rs.
Proof.
  intros Hres. exists (select_base_tables (conn s) cat).
  split_and!.
  - rewrite get_tables_unfold, get_tables_via_info_schema_snowflake.
    by rewrite Hres.
  - intros r. unfold select_base_tables.
    rewrite merge_sort_Permutation, list_elem_of_filter, scan_rearranges.
    unfold base_table_outside_info_schema. tauto.
  - apply StronglySorted_merge_sort; apply _.
Qed.

Lemma get_tables_base_tables_sorted_witness :
  resolve (conn (connect_to demo_account)) (str_truthy None)
  = Ok demo_catalog
  ∧ ∃ rs : list tables_row,
      outcome (get_tables None) (connect_to demo_account)
      = Ok (table_info <$> rs)
      ∧ (forall r, r ∈ rs ↔
                   r ∈ info_tables demo_catalog
                   ∧ table_type r = "BASE TABLE"
                   ∧ table_schema r ≠ "INFORMATION_SCHEMA")
      ∧ StronglySorted tables_le rs.
Proof.
  split; [reflexivity|].
  apply (get_tables_base_tables_sorted None (connect_to demo_account)
           demo_catalog).
  reflexivity.
Defined.

(** ** [get_columns] *)

(** On any driver: once both statements have run, the columns are
    built from the rows of the first answer, fetched before the second
    statement runs, each flagged by the membership of its name among
    the first fields of the rows of the second answer. *)
Lemma get_columns_run {B : Type} `{!Driver B}
    (table : string) (database schema : option string) (s : session B)
    (rs1 rs2 : result_set) (b1 b2 : B) :
  let params := Some [VStr (str_or schema "PUBLIC"); VStr table] in
  driver_execute (conn s) (columns_sql (db_prefix_of database)) params
  = (Ok rs1, b1) ->
  driver_execute b1 (pk_sql (db_prefix_of database)) params = (Ok rs2, b2) ->
  outcome (get_columns table database schema) s
  = (pk_columns ← mapM (fun row : row => index row 0) (rs_rows rs2);
     mapM (fun row : row =>
             n ← index row 0;
             t ← index row 1;
             n' ← index row 0;
             mret (mkColumnInfo n t
                     (bool_decide
                        (eq_key n' ∈ (list_to_set (eq_key <$> pk_columns)
                                       : gset value)))))
          (rs_rows rs1)).
Proof.
  intros params Hx1 Hx2. unfold outcome, get_columns.
  rewrite (bind_Ok _ _ _ () (Session (conn s) fresh_cursor)) by done.
  rewrite (bind_Ok _ _ _ _ _
             (cursor_execute_Ok _ _ (Session (conn s) fresh_cursor) _ _ Hx1)).
  unfold mbind at 1, M_bind at 1, cursor_fetchall at 1. simpl.
  rewrite (bind_Ok _ _ _ _ _
             (cursor_execute_Ok _ _ (Session b1 _) _ _ Hx2)).
  unfold mbind at 1, M_bind at 1, cursor_fetchall at 1. simpl.
  unfold mbind at 1, M_bind at 1, lift at 1.
  destruct (mapM _ (rs_rows rs2)) as [pk|e]; [|done].
  simpl. unfold lift. simpl. done.
Qed.

Section snowflake_columns.
Implicit Types (a : account) (s : session account) (cat : catalog).

Lemma get_columns_snowflake table database schema s cat :
  resolve (conn s) (str_truthy database) = Ok cat ->
  let p_schema := VStr (str_or schema "PUBLIC") in
  let p_table := VStr table in
  outcome (get_columns table database schema) s
  = Ok (column_info (reported_key_columns (conn s) cat p_schema p_table)
          <$> select_columns (conn s) cat p_schema p_table).
Proof.
  intros Hres p_schema p_table.
  erewrite get_columns_run; cycle 1.
  - unfold driver_execute, snowflake_driver. rewrite parse_columns_sql.
    unfold run_statement. rewrite Hres. reflexivity.
  - unfold driver_execute, snowflake_driver. rewrite parse_pk_sql.
    unfold run_statement. rewrite Hres. reflexivity.
  - unfold answer. simpl.
    rewrite (mapM_fmap_Ok _ _ (fun k => VStr (kcu_column_name k)))
      by done.
    change (Ok ?x ≫= ?f) with (f x). cbv beta.
    apply mapM_fmap_Ok. intros c. simpl. unfold column_info. do 2 f_equal.
    apply bool_decide_ext. rewrite elem_of_list_to_set.
    by rewrite <- list_fmap_compose.
Qed.

End snowflake_columns.

(** Which names the key statement reports does not depend on the order
    in which the engine scans: they are the key columns of the
    constraints that the join and the filter of the statement keep. *)
Lemma reported_key_columns_spec (a : account) (cat : catalog)
    (p_schema p_table : value) (n : string) :
  VStr n ∈ reported_key_columns a cat p_schema p_table ↔
  ∃ tc kcu,
    tc ∈ info_table_constraints cat
    ∧ kcu ∈ info_key_column_usage cat
    ∧ primary_key_of p_schema p_table (tc, kcu)
    ∧ kcu_column_name kcu = n.
Proof.
  unfold reported_key_columns, select_primary_key_columns.
  rewrite list_elem_of_fmap. split.
  - intros (k & [= ->] & Hk).
    apply list_elem_of_fmap in Hk as ([tc kcu] & -> & Hj).
    apply list_elem_of_filter in Hj as [Hpk Hj].
    rewrite scan_rearranges in Hj.
    apply list_elem_of_bind in Hj as (tc' & Hj & Htc).
    apply list_elem_of_bind in Hj as (kcu' & Hj & Hkcu).
    apply list_elem_of_singleton in Hj as [= -> ->].
    by exists tc', kcu'.
  - intros (tc & kcu & Htc & Hkcu & Hpk & <-).
    exists kcu. split; [done|].
    apply list_elem_of_fmap. exists (tc, kcu). split; [done|].
    apply list_elem_of_filter. split; [done|].
    rewrite scan_rearranges.
    apply list_elem_of_bind. exists tc. split; [|done].
    apply list_elem_of_bind. exists kcu. split; [|done].
    by apply list_elem_of_singleton.
Qed.

(** C4. Against the engine, with a database argument that resolves (or
    none): [get_columns] returns one [ColumnInfo] per column row of the
    table, carrying its name and type; each is flagged as primary key
    exactly when its name is among the names the key statement reports;
    those names are fixed by the constraint relations alone, whatever
    the order in which the engine scans; and the column rows come in
    ascending ordinal position. *)
Theorem get_columns_primary_key_flags
    (table : string) (database schema : option string)
    (s : session account) (cat : catalog) :
  resolve (conn s) (str_truthy database) = Ok cat ->
  let p_schema := VStr (str_or schema "PUBLIC") in
  let p_table := VStr table in
  let reported := reported_key_columns (conn s) cat p_schema p_table in
  ∃ (cs : list columns_row) (cols : list ColumnInfo),
    outcome (get_columns table database schema) s = Ok cols
    ∧ Forall2 (fun c ci => name ci = VStr (column_name c)
                           ∧ data_type ci = VStr (c_data_type c)) cs cols
    ∧ Forall (fun ci => is_primary_key ci = true ↔ name ci ∈ reported) cols
    ∧ (forall n, VStr n ∈ reported ↔
                 ∃ tc kcu,
                   tc ∈ info_table_constraints cat
                   ∧ kcu ∈ info_key_column_usage cat
                   ∧ primary_key_of p_schema p_table (tc, kcu)
                   ∧ kcu_column_name kcu = n)
    ∧ cs ≡ₚ filter (column_of p_schema p_table) (info_columns cat)
    ∧ StronglySorted ordinal_le cs.
Proof.
  intros Hres p_schema p_table reported.
  exists (select_columns (conn s) cat p_schema p_table),
         (column_info reported <$> select_columns (conn s) cat p_schema p_table).
  split_and!.
  - by apply get_columns_snowflake.
  - apply Forall2_fmap_r, Forall_Forall2_diag, Forall_forall. by intros c _.
  - apply Forall_fmap, Forall_forall. intros c _. simpl.
    by rewrite bool_decide_eq_true.
  - intros n. apply reported_key_columns_spec.
  - unfold select_columns.
    by rewrite merge_sort_Permutation, scan_rearranges.
  - apply StronglySorted_merge_sort; apply _.
Qed.

Lemma get_columns_primary_key_flags_witness :
  resolve (conn (connect_to demo_account)) (str_truthy (Some "ANALYTICS"))
  = Ok demo_catalog
  ∧ ∃ (cs : list columns_row) (cols : list ColumnInfo),
      outcome (get_columns "USERS" (Some "ANALYTICS") None)
              (connect_to demo_account) = Ok cols
      ∧ Forall2 (fun c ci => name ci = VStr (column_name c)
                             ∧ data_type ci = VStr (c_data_type c)) cs cols
      ∧ Forall (fun ci => is_primary_key ci = true ↔
                          name ci ∈ reported_key_columns demo_account
                                      demo_catalog (VStr "PUBLIC") (VStr "USERS"))
               cols
      ∧ (forall n, VStr n ∈ reported_key_columns demo_account demo_catalog
                              (VStr "PUBLIC") (VStr "USERS") ↔
                   ∃ tc kcu,
                     tc ∈ info_table_constraints demo_catalog
                     ∧ kcu ∈ info_key_column_usage demo_catalog
                     ∧ primary_key_of (VStr "PUBLIC") (VStr "USERS") (tc, kcu)
                     ∧ kcu_column_name kcu = n)
      ∧ cs ≡ₚ filter (column_of (VStr "PUBLIC") (VStr "USERS"))
                     (info_columns demo_catalog)
      ∧ StronglySorted ordinal_le cs.
Proof.
  split; [reflexivity|].
  apply (get_columns_primary_key_flags "USERS" (Some "ANALYTICS") None
           (connect_to demo_account) demo_catalog).
  reflexivity.
Defined.

(** The demo account, run: the tables in order, and the columns of
    USERS with the key column flagged. *)
Example get_tables_demo :
  outcome (get_tables None) (connect_to demo_account)
  = Ok [ (VStr "PUBLIC", VStr "USERS");
         (VStr "SALES", VStr "CUSTOMERS");
         (VStr "SALES", VStr "ORDERS") ].
Proof. rewrite get_tables_unfold. reflexivity. Qed.

Example get_columns_demo :
  outcome (get_columns "USERS" None None) (connect_to demo_account)
  = Ok [ mkColumnInfo (VStr "ID") (VStr "NUMBER") true;
         mkColumnInfo (VStr "EMAIL") (VStr "TEXT") false ].
Proof. by vm_compute. Qed.

Example get_tables_unknown_database :
  outcome (get_tables (Some "NOPE")) (connect_to demo_account)
  = Raise (ProgrammingError "Database does not exist or not authorized").
Proof. rewrite get_tables_unfold. reflexivity. Qed.

(** * Further properties of the adapter *)

(** ** Quoting inside a longer text *)

(** X1. Whatever the name, its quoted form followed by any text that
    does not begin with a quote is read back as that name, and the
    reading stops exactly where the following text starts. *)
Theorem quote_identifier_delimits (name rest : string) :
  not_quote_led rest ->
  ∃ body,
    quote_identifier name +:+ rest = String dquote body
    ∧ scan_quoted body = Some (name, rest).
Proof.
  intros Hrest. exists (escaped name +:+ String dquote rest). split.
  - rewrite quote_identifier_unfold, app_String.
    by rewrite app_assoc_str, app_String, app_empty_l.
  - by apply scan_quoted_escaped.
Qed.

Lemma quote_identifier_delimits_witness :
  not_quote_led ".t"
  ∧ ∃ body,
      quote_identifier ("a" +:+ String dquote "b") +:+ ".t"
      = String dquote body
      ∧ scan_quoted body = Some ("a" +:+ String dquote "b", ".t").
Proof.
  split; [reflexivity|].
  apply (quote_identifier_delimits ("a" +:+ String dquote "b") ".t").
  reflexivity.
Defined.

(** X2. Two names have the same quoted form only when they are the
    same name. *)
Theorem quote_identifier_injective (n1 n2 : string) :
  quote_identifier n1 = quote_identifier n2 ↔ n1 = n2.
Proof.
  split; [apply quote_identifier_inj|]. by intros ->.
Qed.

(** X3. For a table and a schema without quote characters, the schema
    not being the empty string, [build_select_query] builds the text in
    which both names went through [quote_identifier]. *)
Theorem build_select_query_plain_names
    (table : string) (limit : Z) (database schema : option string) :
  quote_free table ->
  quote_free (default default_schema schema) ->
  schema ≠ Some "" ->
  build_select_query table limit database schema
  = "SELECT * FROM " +:+ quote_identifier (default default_schema schema)
    +:+ "." +:+ quote_identifier table +:+ " LIMIT " +:+ str_of_int limit.
Proof. apply build_select_query_quote_free. Qed.

Lemma build_select_query_plain_names_witness :
  quote_free "orders"
  ∧ quote_free (default default_schema (Some "sales"))
  ∧ Some "sales" ≠ Some ""
  ∧ build_select_query "orders" 10 (Some "db") (Some "sales")
    = "SELECT * FROM " +:+ quote_identifier "sales"
      +:+ "." +:+ quote_identifier "orders" +:+ " LIMIT " +:+ str_of_int 10.
Proof.
  split; [reflexivity|]. split; [reflexivity|]. split; [discriminate|].
  apply (build_select_query_plain_names "orders" 10 (Some "db") (Some "sales"));
    [reflexivity|reflexivity|discriminate].
Defined.

(** X4. An empty-string schema counts as an omitted one and an omitted
    one as the default schema, in [build_select_query] and in
    [get_columns]; an empty-string database counts as no database in
    every catalog method. *)
Theorem empty_arguments_count_as_omitted {B : Type} `{!Driver B}
    (table : string) (limit : Z) (database schema : option string) :
  build_select_query table limit database (Some "")
  = build_select_query table limit database None
  ∧ build_select_query table limit database None
    = build_select_query table limit database (Some default_schema)
  ∧ get_columns (B:=B) table database (Some "") = get_columns table database None
  ∧ get_columns (B:=B) table database None
    = get_columns table database (Some default_schema)
  ∧ get_columns (B:=B) table (Some "") schema = get_columns table None schema
  ∧ get_tables (B:=B) (Some "") = get_tables None
  ∧ get_views (B:=B) (Some "") = get_views None
  ∧ get_procedures (B:=B) (Some "") = get_procedures None
  ∧ get_sequences (B:=B) (Some "") = get_sequences None.
Proof.
  rewrite !get_tables_unfold. split_and!; reflexivity.
Qed.

(** ** More on [execute_query] and [execute_non_query] *)

Lemma recording_execute {B : Type} `{!Driver B} (s : session (recorded B))
    (sql : string) (params : option (list value)) :
  driver_execute (conn s) sql params
  = ((driver_execute (conn s).1 sql params).1,
     ((driver_execute (conn s).1 sql params).2,
      sent s ++ [(sql, params)])).
Proof.
  unfold driver_execute at 1, recording_driver, sent.
  by destruct (driver_execute (conn s).1 sql params).
Qed.

(** X5. Whatever the outcome and whatever the ceiling,
    [execute_query] sends the statement once, without bind parameters,
    and nothing else; so does [execute_non_query]. *)
Theorem execute_sends_once {B : Type} `{!Driver B}
    (query : string) (max_rows : option Z) (s : session (recorded B)) :
  sent (execute_query query max_rows s).2 = sent s ++ [(query, None)]
  ∧ sent (execute_non_query query s).2 = sent s ++ [(query, None)].
Proof.
  unfold execute_query, execute_non_query.
  unfold mbind, M_bind, conn_cursor, cursor_execute, cursor_description,
    cursor_rowcount, cursor_fetchmany, cursor_fetchall, mret, M_ret.
  simpl. rewrite (recording_execute s).
  destruct (driver_execute (conn s).1 query None) as [[rs|e] b]; simpl;
    [|done].
  split; [|done].
  destruct max_rows as [k|]; simpl; [|done].
  by destruct (k + 1 <? 0)%Z.
Qed.

(** X6. An exception raised by the driver while the statement runs
    comes out of [execute_query] and [execute_non_query] as it is, and
    the connection is left as that one failed execution left it. *)
Theorem execute_raises_unchanged {B : Type} `{!Driver B}
    (query : string) (max_rows : option Z) (s : session B) (e : exn) (b : B) :
  driver_execute (conn s) query None = (Raise e, b) ->
  execute_query query max_rows s = (Raise e, Session b fresh_cursor)
  ∧ execute_non_query query s = (Raise e, Session b fresh_cursor).
Proof.
  intros Hx.
  pose proof (cursor_execute_Raise _ _ (Session (conn s) fresh_cursor)
                _ _ Hx) as Hc.
  split.
  - unfold execute_query.
    rewrite (bind_Ok _ _ _ () (Session (conn s) fresh_cursor)) by done.
    by rewrite (bind_Raise _ _ _ _ _ Hc).
  - unfold execute_non_query.
    rewrite (bind_Ok _ _ _ () (Session (conn s) fresh_cursor)) by done.
    by rewrite (bind_Raise _ _ _ _ _ Hc).
Qed.

Lemma execute_raises_unchanged_witness :
  driver_execute (conn (connect_to [Raise (DatabaseError "syntax error")]))
    "SELEC 1" None
  = (Raise (DatabaseError "syntax error"), [])
  ∧ execute_query "SELEC 1" (Some 10%Z)
      (connect_to [Raise (DatabaseError "syntax error")])
    = (Raise (DatabaseError "syntax error"), Session [] fresh_cursor)
  ∧ execute_non_query "SELEC 1"
      (connect_to [Raise (DatabaseError "syntax error")])
    = (Raise (DatabaseError "syntax error"), Session [] fresh_cursor).
Proof.
  split; [reflexivity|].
  apply (execute_raises_unchanged "SELEC 1" (Some 10%Z)
           (connect_to [Raise (DatabaseError "syntax error")])).
  reflexivity.
Defined.

(** X7. With the ceiling -1, once the statement has run,
    [execute_query] takes no row off the cursor and returns no rows
    with the truncation flag set, whatever the result set holds, an
    empty one included. *)
Theorem execute_query_ceiling_minus_one {B : Type} `{!Driver B}
    (query : string) (s : session B) (rs : result_set) (b : B) :
  driver_execute (conn s) query None = (Ok rs, b) ->
  execute_query query (Some (-1)%Z) s
  = (Ok (col_name <$> default [] (rs_description rs), [], true),
     Session b (cursor_of rs)).
Proof.
  intros Hx. unfold execute_query.
  rewrite (bind_Ok _ _ _ () (Session (conn s) fresh_cursor)) by done.
  rewrite (bind_Ok _ _ _ _ _
             (cursor_execute_Ok _ _ (Session (conn s) fresh_cursor) _ _ Hx)).
  unfold mbind, M_bind, cursor_description, cursor_fetchmany, mret, M_ret.
  simpl. rewrite columns_of_description. unfold cursor_of.
  by rewrite drop_0.
Qed.

Lemma execute_query_ceiling_minus_one_witness :
  driver_execute (conn (connect_to [Ok ddl_answer])) "SELECT 1 WHERE FALSE" None
  = (Ok ddl_answer, [])
  ∧ execute_query "SELECT 1 WHERE FALSE" (Some (-1)%Z)
      (connect_to [Ok ddl_answer])
    = (Ok (col_name <$> default [] (rs_description ddl_answer), [], true),
       Session [] (cursor_of ddl_answer)).
Proof.
  split; [reflexivity|].
  apply (execute_query_ceiling_minus_one "SELECT 1 WHERE FALSE"
           (connect_to [Ok ddl_answer]) ddl_answer []).
  reflexivity.
Defined.

(** X8. Once the statement has run, with no ceiling or a ceiling that
    is not negative: the rows returned are the first rows of the result
    set, never more than the ceiling, and the truncation flag is clear
    exactly when they are all the rows of the result set. *)
Theorem execute_query_flag_is_truthful {B : Type} `{!Driver B}
    (query : string) (max_rows : option Z) (s : session B)
    (rs : result_set) (b : B) :
  driver_execute (conn s) query None = (Ok rs, b) ->
  row_ceiling max_rows ->
  ∃ cols rows truncated,
    outcome (execute_query query max_rows) s = Ok (cols, rows, truncated)
    ∧ rows `prefix_of` rs_rows rs
    ∧ (truncated = false ↔ rows = rs_rows rs)
    ∧ (forall k, max_rows = Some k -> (len rows <= k)%Z).
Proof.
  intros Hx Hmax. unfold outcome. destruct max_rows as [k|].
  - simpl in Hmax. rewrite (execute_query_limited _ _ _ _ _ Hx Hmax).
    eexists _, _, _. split; [done|]. split_and!.
    + exists (drop (Z.to_nat k) (rs_rows rs)). by rewrite take_drop.
    + rewrite bool_decide_eq_false. unfold len. split.
      * intros Hge. rewrite take_ge; [done|lia].
      * intros Heq. apply (f_equal length) in Heq.
        rewrite length_take in Heq. lia.
    + intros k' [= <-]. unfold len. rewrite length_take. lia.
  - rewrite (execute_query_unlimited _ _ _ _ Hx).
    eexists _, _, _. split; [done|]. split_and!; [done|done|done].
Qed.

Lemma execute_query_flag_is_truthful_witness :
  driver_execute (conn (connect_to [Ok three_rows])) "SELECT n FROM t" None
  = (Ok three_rows, [])
  ∧ row_ceiling (Some 3%Z)
  ∧ ∃ cols rows truncated,
      outcome (execute_query "SELECT n FROM t" (Some 3%Z))
              (connect_to [Ok three_rows])
      = Ok (cols, rows, truncated)
      ∧ rows `prefix_of` rs_rows three_rows
      ∧ (truncated = false ↔ rows = rs_rows three_rows)
      ∧ (forall k, Some 3%Z = Some k -> (len rows <= k)%Z).
Proof.
  split; [reflexivity|]. split; [simpl; lia|].
  apply (execute_query_flag_is_truthful "SELECT n FROM t" (Some 3%Z)
           (connect_to [Ok three_rows]) three_rows []);
    [reflexivity|simpl; lia].
Defined.

(** ** List comprehensions that index rows *)

Lemma mapM_cons {A C} (f : A -> result C) (x : A) (l : list A) :
  mapM f (x :: l) = f x ≫= fun y => mapM f l ≫= fun k => mret (y :: k).
Proof. reflexivity. Qed.

Lemma mapM_Ok_Forall2 {A C} (f : A -> result C) (l : list A) (k : list C) :
  Forall2 (fun x y => f x = Ok y) l k -> mapM f l = Ok k.
Proof.
  induction 1 as [|x y l k Hxy _ IH]; [done|].
  by rewrite mapM_cons, Hxy, IH.
Qed.

(** When every element either maps to a value or raises [e], and some
    element raises, the comprehension raises [e]. *)
Lemma mapM_Raise_Exists {A C} (f : A -> result C) (e : exn) (l : list A) :
  Forall (fun x => f x = Raise e ∨ ∃ y, f x = Ok y) l ->
  Exists (fun x => f x = Raise e) l ->
  mapM f l = Raise e.
Proof.
  induction 1 as [|x l Hx _ IH]; intros Hex; [by inversion Hex|].
  rewrite mapM_cons. destruct Hx as [->|[y Hy]]; [done|].
  rewrite Hy. apply Exists_cons in Hex as [Hex|Hex]; [congruence|].
  by rewrite IH.
Qed.

Lemma index_Ok {A} (l : list A) (i : nat) (x : A) :
  l !! i = Some x -> index l i = Ok x.
Proof. intros Hl. unfold index. by rewrite Hl. Qed.

Lemma index_short {A} (l : list A) (i : nat) :
  length l <= i -> index l i = Raise IndexError.
Proof. intros Hl. unfold index. by rewrite lookup_ge_None_2. Qed.

Lemma index_cases {A} (l : list A) (i : nat) :
  index l i = Raise IndexError ∨ ∃ x, index l i = Ok x.
Proof. unfold index. destruct (l !! i); eauto. Qed.

(** What a method returns that runs one statement without parameters,
    fetches all rows and maps them. *)
Lemma fetch_and_map {B : Type} `{!Driver B} {C}
    (sql : string) (f : row -> result C) (s : session B)
    (rs : result_set) (b : B) :
  driver_execute (conn s) sql None = (Ok rs, b) ->
  outcome (conn_cursor;; cursor_execute sql None;;
           rows ← cursor_fetchall; lift (mapM f rows)) s
  = mapM f (rs_rows rs).
Proof.
  intros Hx. unfold outcome.
  rewrite (bind_Ok _ _ _ () (Session (conn s) fresh_cursor)) by done.
  rewrite (bind_Ok _ _ _ _ _
             (cursor_execute_Ok _ _ (Session (conn s) fresh_cursor) _ _ Hx)).
  reflexivity.
Qed.

(** ** [get_databases] and [get_sequences] *)

(** X9. Once SHOW DATABASES has run, [get_databases] returns the
    second field of every row, in the order of the rows, and raises
    [IndexError] when some row has fewer than two fields. *)
Theorem get_databases_second_field {B : Type} `{!Driver B}
    (s : session B) (rs : result_set) (b : B) :
  driver_execute (conn s) "SHOW DATABASES" None = (Ok rs, b) ->
  (forall names,
     Forall2 (fun (r : row) n => r !! 1 = Some n) (rs_rows rs) names ->
     outcome get_databases s = Ok names)
  ∧ (Exists (fun r : row => length r <= 1) (rs_rows rs) ->
     outcome get_databases s = Raise IndexError).
Proof.
  intros Hx. unfold get_databases. rewrite (fetch_and_map _ _ _ _ _ Hx).
  split.
  - intros names Hrows. apply mapM_Ok_Forall2.
    eapply Forall2_impl; [done|]. intros r n. apply index_Ok.
  - intros Hshort. apply mapM_Raise_Exists.
    + apply Forall_forall. intros r _. apply index_cases.
    + eapply Exists_impl; [done|]. intros r. apply index_short.
Qed.

Lemma get_databases_second_field_witness :
  let answer :=
    ResultSet None [[VStr "2024-01-01"; VStr "ANALYTICS"; VStr "N"];
                    [VStr "2024-02-01"; VStr "STAGING"; VStr "N"]] None in
  driver_execute (conn (connect_to [Ok answer])) "SHOW DATABASES" None
  = (Ok answer, [])
  ∧ outcome get_databases (connect_to [Ok answer])
    = Ok [VStr "ANALYTICS"; VStr "STAGING"].
Proof.
  intros answer. split; [reflexivity|].
  apply (get_databases_second_field (connect_to [Ok answer]) answer []);
    [reflexivity|].
  repeat constructor.
Defined.

(** X10. Once its statement has run, [get_sequences] returns one
    [SequenceInfo] per row, named by the first field of the row, in the
    order of the rows, and raises [IndexError] when some row is empty. *)
Theorem get_sequences_one_per_row {B : Type} `{!Driver B}
    (database : option string) (s : session B) (rs : result_set) (b : B) :
  driver_execute (conn s) (sequences_sql database) None = (Ok rs, b) ->
  (forall seqs,
     Forall2 (fun (r : row) q => r !! 0 = Some (sequence_name q))
             (rs_rows rs) seqs ->
     outcome (get_sequences database) s = Ok seqs)
  ∧ (Exists (fun r : row => r = []) (rs_rows rs) ->
     outcome (get_sequences database) s = Raise IndexError).
Proof.
  intros Hx. unfold get_sequences. rewrite (fetch_and_map _ _ _ _ _ Hx).
  split.
  - intros seqs Hrows. apply mapM_Ok_Forall2.
    eapply Forall2_impl; [done|]. intros r [n] Hr. simpl in Hr.
    by rewrite (index_Ok _ _ _ Hr).
  - intros Hshort. apply mapM_Raise_Exists.
    + apply Forall_forall. intros r _.
      destruct (index_cases r 0) as [->|[x ->]]; [by left|right; eauto].
    + eapply Exists_impl; [done|]. by intros r ->.
Qed.

Lemma get_sequences_one_per_row_witness :
  let answer := ResultSet None [[VStr "ORDER_ID_SEQ"]; [VStr "USER_ID_SEQ"]] None in
  driver_execute (conn (connect_to [Ok answer])) (sequences_sql None) None
  = (Ok answer, [])
  ∧ outcome (get_sequences None) (connect_to [Ok answer])
    = Ok [mkSequenceInfo (VStr "ORDER_ID_SEQ");
          mkSequenceInfo (VStr "USER_ID_SEQ")].
Proof.
  intros answer. split; [reflexivity|].
  apply (get_sequences_one_per_row None (connect_to [Ok answer]) answer []);
    [reflexivity|].
  repeat constructor.
Defined.

(** ** What the catalog methods send *)

Lemma recording_cursor_execute {B : Type} `{!Driver B}
    (s : session (recorded B)) (sql : string) (params : option (list value)) :
  sent (cursor_execute sql params s).2 = sent s ++ [(sql, params)].
Proof.
  unfold cursor_execute. rewrite recording_execute.
  by destruct (driver_execute (conn s).1 sql params) as [[rs|e] b].
Qed.

Lemma recording_cursor_execute_result {B : Type} `{!Driver B}
    (s : session (recorded B)) (sql : string) (params : option (list value)) :
  (cursor_execute sql params s).1
  = match (driver_execute (conn s).1 sql params).1 with
    | Ok _ => Ok ()
    | Raise e => Raise e
    end.
Proof.
  unfold cursor_execute. rewrite recording_execute.
  by destruct (driver_execute (conn s).1 sql params) as [[rs|e] b].
Qed.

(** Fetching the rows and mapping them leaves the connection alone. *)
Lemma fetch_lift_conn {B C : Type} (g : list row -> result C) (s : session B) :
  conn ((cursor_fetchall ≫= fun rows => lift (g rows)) s).2 = conn s.
Proof.
  unfold mbind, M_bind, cursor_fetchall, lift. simpl.
  by destruct (g (pending (cur s))).
Qed.

Lemma fetch_two_lifts_conn {B C D : Type} (g : list row -> result C)
    (h : C -> result D) (s : session B) :
  conn ((cursor_fetchall ≫= fun rows =>
         lift (g rows) ≫= fun x => lift (h x)) s).2 = conn s.
Proof.
  unfold mbind, M_bind, cursor_fetchall, lift. simpl.
  destruct (g (pending (cur s))) as [x|e]; simpl; [|done].
  by destruct (h x).
Qed.

(** X11. Whatever the outcome, [get_tables] sends exactly one
    statement, the SELECT over [information_schema.tables] of the
    database given, without bind parameters; it never sends SHOW
    TABLES. *)
Theorem get_tables_sends_one_select {B : Type} `{!Driver B}
    (database : option string) (s : session (recorded B)) :
  sent (get_tables database s).2
  = sent s ++ [(tables_head +:+ db_prefix_of database +:+ tables_tail, None)].
Proof.
  rewrite get_tables_unfold. unfold get_tables_via_info_schema.
  rewrite (bind_Ok _ _ _ () (Session (conn s) fresh_cursor)) by done.
  unfold mbind at 1, M_bind at 1.
  pose proof (recording_cursor_execute (Session (conn s) fresh_cursor)
                (tables_head +:+ db_prefix_of database +:+ tables_tail) None)
    as Hsent.
  unfold tables_head, tables_tail in Hsent |- *.
  destruct (cursor_execute _ None _) as [[[]|e] s']; [|done].
  unfold sent. by rewrite fetch_lift_conn.
Qed.

(** X12. [get_columns] sends the column statement and then, unless the
    column statement raised, the key statement; the text of both
    depends on the database alone, and the schema (PUBLIC when omitted
    or empty) and the table travel as bind parameters. *)
Theorem get_columns_statements {B : Type} `{!Driver B}
    (table : string) (database schema : option string)
    (s : session (recorded B)) :
  let params := Some [VStr (str_or schema "PUBLIC"); VStr table] in
  let first := (columns_sql (db_prefix_of database), params) in
  let second := (pk_sql (db_prefix_of database), params) in
  sent (get_columns table database schema s).2
  = match (driver_execute (conn s).1 first.1 params).1 with
    | Ok _ => sent s ++ [first; second]
    | Raise _ => sent s ++ [first]
    end.
Proof.
  intros params first second. subst params first second. cbn [fst].
  unfold get_columns.
  rewrite (bind_Ok _ _ _ () (Session (conn s) fresh_cursor)) by done.
  unfold mbind at 1, M_bind at 1, cursor_execute at 1.
  rewrite (recording_execute (Session (conn s) fresh_cursor)).
  simpl.
  destruct (driver_execute (conn s).1 _ _) as [[rs1|e1] b1]; simpl;
    [|done].
  unfold mbind at 1, M_bind at 1, cursor_fetchall at 1. simpl.
  unfold mbind at 1, M_bind at 1.
  match goal with
  | |- context [cursor_execute ?q ?p ?s0] =>
      pose proof (recording_cursor_execute s0 q p) as Hsent2;
      destruct (cursor_execute q p s0) as [[[]|e2] s2]
  end; simpl in Hsent2; unfold sent in Hsent2; simpl in Hsent2.
  - unfold sent. rewrite fetch_two_lifts_conn, Hsent2.
    by rewrite <- (assoc_L (++)).
  - unfold sent. simpl. rewrite Hsent2. by rewrite <- (assoc_L (++)).
Qed.

(** X13. When the column statement has run and the key statement
    raises, [get_columns] raises that exception: the column rows
    already fetched are not returned. *)
Theorem get_columns_key_statement_failure {B : Type} `{!Driver B}
    (table : string) (database schema : option string) (s : session B)
    (rs : result_set) (b1 b2 : B) (e : exn) :
  let params := Some [VStr (str_or schema "PUBLIC"); VStr table] in
  driver_execute (conn s) (columns_sql (db_prefix_of database)) params
  = (Ok rs, b1) ->
  driver_execute b1 (pk_sql (db_prefix_of database)) params = (Raise e, b2) ->
  outcome (get_columns table database schema) s = Raise e
  ∧ conn (get_columns table database schema s).2 = b2.
Proof.
  intros params Hx1 Hx2.
  set (fetched := Session b1 {| description := rs_description rs;
                                pending := [];
                                rowcount := rs_rowcount rs |}).
  assert (get_columns table database schema s
          = (Raise e, Session b2 (cur fetched))) as Hrun.
  { unfold get_columns.
    rewrite (bind_Ok _ _ _ () (Session (conn s) fresh_cursor)) by done.
    rewrite (bind_Ok _ _ _ _ _
               (cursor_execute_Ok _ _ (Session (conn s) fresh_cursor)
                  _ _ Hx1)).
    rewrite (bind_Ok _ _ _ (rs_rows rs) fetched) by done.
    by rewrite (bind_Raise _ _ _ _ _
                  (cursor_execute_Raise _ _ fetched _ _ Hx2)). }
  unfold outcome. by rewrite Hrun.
Qed.

Lemma get_columns_key_statement_failure_witness :
  let missing := DatabaseError "Object KEY_COLUMN_USAGE does not exist" in
  let script := [Ok three_rows; Raise missing] in
  driver_execute (conn (connect_to script)) (columns_sql (db_prefix_of None))
    (Some [VStr (str_or None "PUBLIC"); VStr "USERS"])
  = (Ok three_rows, [Raise missing])
  ∧ driver_execute [Raise missing] (pk_sql (db_prefix_of None))
      (Some [VStr (str_or None "PUBLIC"); VStr "USERS"])
    = (Raise missing, [])
  ∧ outcome (get_columns "USERS" None None) (connect_to script) = Raise missing
  ∧ conn (get_columns "USERS" None None (connect_to script)).2 = [].
Proof.
  intros missing script. split; [reflexivity|]. split; [reflexivity|].
  apply (get_columns_key_statement_failure "USERS" None None
           (connect_to script) three_rows [Raise missing] [] missing);
    reflexivity.
Defined.

(** ** [get_views] *)

Lemma views_sql_db_prefix (database : option string) :
  views_sql database
  = "SELECT table_schema, table_name FROM " +:+ db_prefix_of database +:+
    "information_schema.views WHERE table_schema != 'INFORMATION_SCHEMA' ORDER BY table_schema, table_name".
Proof.
  unfold views_sql, db_prefix_of.
  destruct (str_truthy database) as [d|]; [|reflexivity].
  by rewrite !app_assoc_str.
Qed.

(** X14. [get_views] first sends SHOW VIEWS and then, unless SHOW
    VIEWS raised, the SELECT over [information_schema.views], which
    addresses the database with the same quoted prefix as the other
    catalog statements; when SHOW VIEWS raises, [get_views] raises that
    exception and sends nothing more. *)
Theorem get_views_statements {B : Type} `{!Driver B}
    (database : option string) (s : session (recorded B)) :
  let show := (show_views_sql database, @None (list value)) in
  let select :=
    ("SELECT table_schema, table_name FROM " +:+ db_prefix_of database +:+
     "information_schema.views WHERE table_schema != 'INFORMATION_SCHEMA' ORDER BY table_schema, table_name",
     @None (list value)) in
  match (driver_execute (conn s).1 show.1 None).1 with
  | Ok _ => sent (get_views database s).2 = sent s ++ [show; select]
  | Raise e =>
      sent (get_views database s).2 = sent s ++ [show]
      ∧ outcome (get_views database) s = Raise e
  end.
Proof.
  intros show select. subst show select. cbn [fst].
  rewrite <- views_sql_db_prefix. unfold outcome, get_views.
  rewrite (bind_Ok _ _ _ () (Session (conn s) fresh_cursor)) by done.
  pose proof (recording_cursor_execute (Session (conn s) fresh_cursor)
                (show_views_sql database) None) as Hsent1.
  pose proof (recording_cursor_execute_result
                (Session (conn s) fresh_cursor)
                (show_views_sql database) None) as Hres1.
  simpl in Hres1. unfold sent in Hsent1 |- *. simpl in Hsent1.
  destruct (cursor_execute (show_views_sql database) None _)
    as [[[]|e1] s1] eqn:H1; simpl in Hsent1, Hres1.
  - rewrite (bind_Ok _ _ _ _ _ H1).
    destruct (driver_execute (conn s).1 _ _).1; [|done].
    pose proof (recording_cursor_execute s1 (views_sql database) None)
      as Hsent2.
    unfold sent in Hsent2.
    destruct (cursor_execute (views_sql database) None s1)
      as [[[]|e2] s2] eqn:H2; simpl in Hsent2.
    + rewrite (bind_Ok _ _ _ _ _ H2), fetch_lift_conn, Hsent2, Hsent1.
      by rewrite <- (assoc_L (++)).
    + rewrite (bind_Raise _ _ _ _ _ H2). simpl. rewrite Hsent2, Hsent1.
      by rewrite <- (assoc_L (++)).
  - rewrite (bind_Raise _ _ _ _ _ H1). simpl.
    destruct (driver_execute (conn s).1 _ _).1; [done|].
    by injection Hres1 as ->.
Qed.

(** The pair comprehension of the table and view listings. *)
Lemma mapM_pairs (rows : list row) (pairs : list TableInfo) :
  Forall2 (fun (r : row) p => r !! 0 = Some p.1 ∧ r !! 1 = Some p.2)
          rows pairs ->
  mapM (fun r : row => a ← index r 0; b ← index r 1; mret (a, b)) rows
  = Ok pairs.
Proof.
  intros Hrows. apply mapM_Ok_Forall2.
  eapply Forall2_impl; [done|]. intros r [a b] [Ha Hb]. simpl in *.
  by rewrite (index_Ok _ _ _ Ha), (index_Ok _ _ _ Hb).
Qed.

(** X15. When both statements have run, [get_views] returns the first
    two fields of each row of the second answer, in order; the answer
    to SHOW VIEWS plays no part in the result. *)
Theorem get_views_reads_second_answer {B : Type} `{!Driver B}
    (database : option string) (s : session B)
    (shown rs : result_set) (b0 b : B) (views : list TableInfo) :
  driver_execute (conn s) (show_views_sql database) None = (Ok shown, b0) ->
  driver_execute b0 (views_sql database) None = (Ok rs, b) ->
  Forall2 (fun (r : row) p => r !! 0 = Some p.1 ∧ r !! 1 = Some p.2)
          (rs_rows rs) views ->
  outcome (get_views database) s = Ok views.
Proof.
  intros Hx0 Hx Hrows. unfold outcome, get_views.
  rewrite (bind_Ok _ _ _ () (Session (conn s) fresh_cursor)) by done.
  rewrite (bind_Ok _ _ _ _ _
             (cursor_execute_Ok _ _ (Session (conn s) fresh_cursor)
                _ _ Hx0)).
  rewrite (bind_Ok _ _ _ _ _
             (cursor_execute_Ok _ _ (Session b0 (cursor_of shown)) _ _ Hx)).
  rewrite (bind_Ok _ _ _ (rs_rows rs)
             (Session b {| description := rs_description rs;
                           pending := [];
                           rowcount := rs_rowcount rs |})) by done.
  unfold lift. simpl. by rewrite (mapM_pairs _ _ Hrows).
Qed.

Lemma get_views_reads_second_answer_witness :
  let shown := ResultSet None [[VStr "ignored"]] None in
  let answer := ResultSet None [[VStr "SALES"; VStr "V_ORDERS"]] None in
  driver_execute (conn (connect_to [Ok shown; Ok answer]))
    (show_views_sql (Some "ANALYTICS")) None
  = (Ok shown, [Ok answer])
  ∧ driver_execute [Ok answer] (views_sql (Some "ANALYTICS")) None
    = (Ok answer, [])
  ∧ Forall2 (fun (r : row) p => r !! 0 = Some p.1 ∧ r !! 1 = Some p.2)
            (rs_rows answer) [(VStr "SALES", VStr "V_ORDERS")]
  ∧ outcome (get_views (Some "ANALYTICS")) (connect_to [Ok shown; Ok answer])
    = Ok [(VStr "SALES", VStr "V_ORDERS")].
Proof.
  intros shown answer.
  assert (Forall2 (fun (r : row) (p : TableInfo) =>
                     r !! 0 = Some p.1 ∧ r !! 1 = Some p.2)
                  (rs_rows answer) [(VStr "SALES", VStr "V_ORDERS")])
    as Hrows by (repeat constructor).
  split; [reflexivity|]. split; [reflexivity|]. split; [exact Hrows|].
  apply (get_views_reads_second_answer (Some "ANALYTICS")
           (connect_to [Ok shown; Ok answer]) shown answer [Ok answer] []
           [(VStr "SALES", VStr "V_ORDERS")]);
    [reflexivity|reflexivity|exact Hrows].
Defined.

(** ** [get_procedures] *)

#[global] Instance value_le_trans : Transitive value_le.
Proof.
  intros [|x|x|x] [|y|y|y] [|z|z|z]; simpl; try done; try lia.
  apply transitivity.
Qed.

#[global] Instance value_le_total : Total value_le.
Proof.
  intros [|x|x|x] [|y|y|y]; simpl; try tauto; try lia.
  apply (total String.le).
Qed.

Lemma set_insert_all_elem seen l w :
  w ∈ set_insert_all seen l -> w ∈ l ∧ eq_key w ∉ seen.
Proof.
  revert seen. induction l as [|x l IH]; intros seen; simpl.
  { by intros ?%elem_of_nil. }
  destruct (decide (eq_key x ∈ seen)) as [Hin|Hout].
  - intros [? ?]%IH. split; [by right|done].
  - intros [->|Hw]%elem_of_cons; [split; [by left|done]|].
    apply IH in Hw as [? Hw]. split; [by right|].
    intros ?. apply Hw. by right.
Qed.

Lemma set_insert_all_covers seen l v :
  v ∈ l -> eq_key v ∉ seen ->
  ∃ w, w ∈ set_insert_all seen l ∧ eq_key w = eq_key v.
Proof.
  revert seen. induction l as [|x l IH]; intros seen Hv Hseen; simpl.
  { by apply elem_of_nil in Hv. }
  apply elem_of_cons in Hv.
  destruct (decide (eq_key x ∈ seen)) as [Hin|Hout].
  - destruct Hv as [->|Hv]; [done|]. by apply IH.
  - destruct (decide (eq_key x = eq_key v)) as [Heq|Hne].
    { exists x. split; [by left|done]. }
    destruct Hv as [->|Hv]; [done|].
    destruct (IH (eq_key x :: seen) Hv) as (w & Hw & Hk).
    { intros [?|?]%elem_of_cons; [congruence|done]. }
    exists w. split; [by right|done].
Qed.

Lemma set_insert_all_NoDup seen l : NoDup (eq_key <$> set_insert_all seen l).
Proof.
  revert seen. induction l as [|x l IH]; intros seen; simpl.
  { constructor. }
  destruct (decide (eq_key x ∈ seen)) as [Hin|Hout]; [apply IH|].
  csimpl. apply NoDup_cons. split; [|apply IH].
  intros (w & Hk & Hw)%list_elem_of_fmap.
  apply set_insert_all_elem in Hw as [_ Hw]. apply Hw. rewrite <- Hk. by left.
Qed.

#[global] Instance VStr_inj : Inj (=) (=) VStr.
Proof. by intros a b [=]. Qed.

Lemma strings_of (l : list value) :
  Forall (fun v => is_str v = true) l -> ∃ out, l = VStr <$> out.
Proof.
  induction 1 as [|[| | |a] l Ha _ [out ->]]; try done.
  - by exists [].
  - by exists (a :: out).
Qed.

Lemma StronglySorted_strings (out : list string) :
  StronglySorted value_le (VStr <$> out) -> StronglySorted String.le out.
Proof.
  induction out as [|a out IH]; [constructor|].
  csimpl. intros [Hs Hall]%StronglySorted_inv. constructor; [by apply IH|].
  by rewrite Forall_fmap in Hall.
Qed.

(** Sorting the set of a list of strings: the strings of the list,
    each once, in ascending order. *)
Lemma sorted_of_set_strings (names : list string) :
  ∃ out,
    sorted_of_set (set_of (VStr <$> names)) = inr (VStr <$> out)
    ∧ StronglySorted String.le out
    ∧ NoDup out
    ∧ forall n, n ∈ out ↔ n ∈ names.
Proof.
  set (l := set_of (VStr <$> names)).
  assert (forall v, v ∈ l -> ∃ n, v = VStr n ∧ n ∈ names) as Hstr.
  { intros v [Hv _]%set_insert_all_elem.
    apply list_elem_of_fmap in Hv as (n & -> & Hn). eauto. }
  assert (Forall (fun v => is_str v = true) l) as Hall.
  { apply Forall_forall. by intros v (n & -> & _)%Hstr. }
  assert (∃ res, sorted_of_set l = inr res ∧ res ≡ₚ l
                 ∧ StronglySorted value_le res) as (res & -> & Hperm & Hsorted).
  { unfold sorted_of_set. destruct l as [|x [|y l']] eqn:Hl.
    - exists []. split_and!; [done|done|constructor].
    - exists [x]. split_and!; [done|done|]. by repeat constructor.
    - rewrite <- Hl in *.
      assert (forallb is_str l = true) as ->.
      { apply forallb_forall. intros v Hv. apply list_elem_of_In in Hv.
        by destruct (Hstr v Hv) as (n & -> & _). }
      simpl. eexists. split_and!; [done|apply merge_sort_Permutation|].
      apply StronglySorted_merge_sort; apply _. }
  destruct (strings_of res) as [out ->].
  { by rewrite Hperm. }
  exists out. split_and!; [done|by apply StronglySorted_strings| |].
  - apply (NoDup_fmap_1 VStr).
    assert (VStr <$> out = eq_key <$> (VStr <$> out)) as ->.
    { rewrite <- list_fmap_compose. by apply list_fmap_ext. }
    rewrite Hperm. apply set_insert_all_NoDup.
  - intros n. rewrite <- (list_elem_of_fmap_inj VStr), Hperm. split.
    + intros (n' & [= ->] & Hn)%Hstr. done.
    + intros Hn.
      destruct (set_insert_all_covers [] (VStr <$> names) (VStr n))
        as (w & Hw & Hk); [by apply list_elem_of_fmap_2|by intros ?%elem_of_nil|].
      destruct (Hstr w Hw) as (n' & -> & _).
      simpl in Hk. by injection Hk as ->.
Qed.

Lemma get_procedures_run {B : Type} `{!Driver B}
    (database : option string) (s : session B) (rs : result_set) (b : B) :
  driver_execute (conn s) (procedures_sql database) None = (Ok rs, b) ->
  outcome (get_procedures database) s
  = (names ← mapM (fun r : row => index r 0) (rs_rows rs);
     mret (sorted_of_set (set_of names))).
Proof.
  intros Hx. unfold outcome, get_procedures.
  rewrite (bind_Ok _ _ _ () (Session (conn s) fresh_cursor)) by done.
  rewrite (bind_Ok _ _ _ _ _
             (cursor_execute_Ok _ _ (Session (conn s) fresh_cursor) _ _ Hx)).
  rewrite (bind_Ok _ _ _ (rs_rows rs)
             (Session b {| description := rs_description rs;
                           pending := [];
                           rowcount := rs_rowcount rs |})) by done.
  unfold mbind at 1, M_bind at 1, lift.
  by destruct (mapM _ (rs_rows rs)).
Qed.

(** X16. Once its statement has run and every row begins with a
    string, [get_procedures] returns exactly the names the rows begin
    with, each once, in ascending order. *)
Theorem get_procedures_sorted_names {B : Type} `{!Driver B}
    (database : option string) (s : session B) (rs : result_set) (b : B)
    (names : list string) :
  driver_execute (conn s) (procedures_sql database) None = (Ok rs, b) ->
  Forall2 (fun (r : row) n => r !! 0 = Some (VStr n)) (rs_rows rs) names ->
  ∃ out : list string,
    outcome (get_procedures database) s = Ok (inr (VStr <$> out))
    ∧ StronglySorted String.le out
    ∧ NoDup out
    ∧ forall n, n ∈ out ↔ n ∈ names.
Proof.
  intros Hx Hrows. rewrite (get_procedures_run _ _ _ _ Hx).
  rewrite (mapM_Ok_Forall2 _ _ (VStr <$> names)).
  - destruct (sorted_of_set_strings names) as (out & Hout & ?).
    exists out. split; [|done]. simpl. by rewrite Hout.
  - apply Forall2_fmap_r. eapply Forall2_impl; [done|].
    intros r n. apply index_Ok.
Qed.

Lemma get_procedures_sorted_names_witness :
  let answer :=
    ResultSet None [[VStr "REFRESH"]; [VStr "ARCHIVE"]; [VStr "REFRESH"]] None in
  driver_execute (conn (connect_to [Ok answer])) (procedures_sql None) None
  = (Ok answer, [])
  ∧ Forall2 (fun (r : row) n => r !! 0 = Some (VStr n)) (rs_rows answer)
            ["REFRESH"; "ARCHIVE"; "REFRESH"]
  ∧ ∃ out : list string,
      outcome (get_procedures None) (connect_to [Ok answer])
      = Ok (inr (VStr <$> out))
      ∧ StronglySorted String.le out
      ∧ NoDup out
      ∧ forall n, n ∈ out ↔ n ∈ ["REFRESH"; "ARCHIVE"; "REFRESH"].
Proof.
  intros answer.
  assert (Forall2 (fun (r : row) n => r !! 0 = Some (VStr n)) (rs_rows answer)
                  ["REFRESH"; "ARCHIVE"; "REFRESH"]) as Hrows
    by (repeat constructor).
  split; [reflexivity|]. split; [exact Hrows|].
  apply (get_procedures_sorted_names None (connect_to [Ok answer]) answer []
           ["REFRESH"; "ARCHIVE"; "REFRESH"]); [reflexivity|exact Hrows].
Defined.

Example get_procedures_demo :
  outcome (get_procedures None)
    (connect_to [Ok (ResultSet None [[VStr "REFRESH"]; [VStr "ARCHIVE"];
                                     [VStr "REFRESH"]] None)])
  = Ok (inr [VStr "ARCHIVE"; VStr "REFRESH"]).
Proof. by vm_compute. Qed.

Lemma eq_key_None v : eq_key v = VNone -> v = VNone.
Proof. by destruct v. Qed.

(** X17. Once its statement has run, when some row begins with [None]
    and some row with anything else, [get_procedures] ends in the
    [TypeError] of [sorted]: the names cannot be ordered. *)
Theorem get_procedures_null_name {B : Type} `{!Driver B}
    (database : option string) (s : session B) (rs : result_set) (b : B)
    (firsts : list value) (v : value) :
  driver_execute (conn s) (procedures_sql database) None = (Ok rs, b) ->
  Forall2 (fun (r : row) x => r !! 0 = Some x) (rs_rows rs) firsts ->
  VNone ∈ firsts ->
  v ∈ firsts ->
  v ≠ VNone ->
  ∃ msg, outcome (get_procedures database) s = Ok (inl (TypeError msg)).
Proof.
  intros Hx Hrows Hnone Hv Hne. rewrite (get_procedures_run _ _ _ _ Hx).
  rewrite (mapM_Ok_Forall2 _ _ firsts)
    by (eapply Forall2_impl; [done|]; intros r x; apply index_Ok).
  simpl. unfold set_of.
  destruct (set_insert_all_covers [] firsts VNone Hnone)
    as (w1 & Hw1 & Hk1); [by intros ?%elem_of_nil|].
  apply eq_key_None in Hk1 as ->.
  destruct (set_insert_all_covers [] firsts v Hv)
    as (w2 & Hw2 & Hk2); [by intros ?%elem_of_nil|].
  assert (w2 ≠ VNone) as Hw2ne.
  { intros ->. simpl in Hk2. symmetry in Hk2. by apply eq_key_None in Hk2. }
  set (l := set_insert_all [] firsts) in *.
  assert (forallb is_str l = false) as Hs.
  { destruct (forallb is_str l) eqn:E; [|done].
    rewrite forallb_forall in E.
    by specialize (E VNone (proj1 (list_elem_of_In _ _) Hw1)). }
  assert (forallb is_num l = false) as Hn.
  { destruct (forallb is_num l) eqn:E; [|done].
    rewrite forallb_forall in E.
    by specialize (E VNone (proj1 (list_elem_of_In _ _) Hw1)). }
  unfold sorted_of_set. destruct l as [|x [|y l']] eqn:Hl.
  - by apply elem_of_nil in Hw1.
  - apply list_elem_of_singleton in Hw1, Hw2. congruence.
  - rewrite Hs, Hn. simpl. by eexists.
Qed.

Lemma get_procedures_null_name_witness :
  let answer := ResultSet None [[VStr "REFRESH"]; [VNone]] None in
  driver_execute (conn (connect_to [Ok answer])) (procedures_sql None) None
  = (Ok answer, [])
  ∧ Forall2 (fun (r : row) x => r !! 0 = Some x) (rs_rows answer)
            [VStr "REFRESH"; VNone]
  ∧ VNone ∈ [VStr "REFRESH"; VNone]
  ∧ VStr "REFRESH" ∈ [VStr "REFRESH"; VNone]
  ∧ VStr "REFRESH" ≠ VNone
  ∧ ∃ msg, outcome (get_procedures None) (connect_to [Ok answer])
           = Ok (inl (TypeError msg)).
Proof.
  intros answer.
  assert (Forall2 (fun (r : row) x => r !! 0 = Some x) (rs_rows answer)
                  [VStr "REFRESH"; VNone]) as Hrows by (repeat constructor).
  assert (VNone ∈ [VStr "REFRESH"; VNone]) as Hnone by (repeat constructor).
  assert (VStr "REFRESH" ∈ [VStr "REFRESH"; VNone]) as Hv by constructor.
  split; [reflexivity|]. split; [exact Hrows|]. split; [exact Hnone|].
  split; [exact Hv|]. split; [discriminate|].
  apply (get_procedures_null_name None (connect_to [Ok answer]) answer []
           [VStr "REFRESH"; VNone] (VStr "REFRESH"));
    [reflexivity|exact Hrows|exact Hnone|exact Hv|discriminate].
Defined.

(** ** [get_columns] on tables without columns or keys *)

(** X18. Against the engine, with a database argument that resolves:
    when no row of [information_schema.columns] belongs to the schema
    and table asked for, [get_columns] returns the empty list and
    raises nothing. *)
Theorem get_columns_unknown_table
    (table : string) (database schema : option string)
    (s : session account) (cat : catalog) :
  resolve (conn s) (str_truthy database) = Ok cat ->
  (forall c, c ∈ info_columns cat ->
             ¬ (c_table_schema c = str_or schema "PUBLIC"
                ∧ c_table_name c = table)) ->
  outcome (get_columns table database schema) s = Ok [].
Proof.
  intros Hres Hnone. rewrite (get_columns_snowflake _ _ _ _ _ Hres).
  assert (select_columns (conn s) cat (VStr (str_or schema "PUBLIC"))
            (VStr table) = []) as ->; [|done].
  apply Permutation_nil_r. unfold select_columns.
  rewrite merge_sort_Permutation, scan_rearranges.
  assert (filter (column_of (VStr (str_or schema "PUBLIC")) (VStr table))
            (info_columns cat) = []) as ->; [|done].
  apply elem_of_nil_inv. intros c [[[= Hs] [= Ht]] Hc]%list_elem_of_filter.
  by apply (Hnone c Hc).
Qed.

Lemma get_columns_unknown_table_witness :
  resolve (conn (connect_to demo_account)) (str_truthy None) = Ok demo_catalog
  ∧ (forall c, c ∈ info_columns demo_catalog ->
               ¬ (c_table_schema c = str_or None "PUBLIC"
                  ∧ c_table_name c = "NO_SUCH_TABLE"))
  ∧ outcome (get_columns "NO_SUCH_TABLE" None None) (connect_to demo_account)
    = Ok [].
Proof.
  assert (forall c, c ∈ info_columns demo_catalog ->
                    ¬ (c_table_schema c = str_or None "PUBLIC"
                       ∧ c_table_name c = "NO_SUCH_TABLE")) as Hnone.
  { intros c Hc [_ Ht]. simpl in Hc.
    repeat (apply elem_of_cons in Hc as [->|Hc]; [discriminate|]).
    by apply elem_of_nil in Hc. }
  split; [reflexivity|]. split; [exact Hnone|].
  apply (get_columns_unknown_table "NO_SUCH_TABLE" None None
           (connect_to demo_account) demo_catalog); [reflexivity|exact Hnone].
Defined.

(** X19. Against the engine, with a database argument that resolves:
    when the table has no PRIMARY KEY constraint, [get_columns] returns
    one [ColumnInfo] per column row of the table and flags none of
    them. *)
Theorem get_columns_without_primary_key
    (table : string) (database schema : option string)
    (s : session account) (cat : catalog) :
  resolve (conn s) (str_truthy database) = Ok cat ->
  (forall tc, tc ∈ info_table_constraints cat ->
              ¬ (constraint_type tc = "PRIMARY KEY"
                 ∧ tc_table_schema tc = str_or schema "PUBLIC"
                 ∧ tc_table_name tc = table)) ->
  ∃ cols,
    outcome (get_columns table database schema) s = Ok cols
    ∧ Forall (fun ci => is_primary_key ci = false) cols
    ∧ length cols
      = length (filter (column_of (VStr (str_or schema "PUBLIC")) (VStr table))
                       (info_columns cat)).
Proof.
  intros Hres Hnone. rewrite (get_columns_snowflake _ _ _ _ _ Hres).
  eexists. split; [done|]. split.
  - apply Forall_fmap, Forall_forall. intros c _. simpl.
    apply bool_decide_eq_false.
    intros (tc & kcu & Htc & _ & Hpk & _)%reported_key_columns_spec.
    destruct Hpk as (_ & _ & Hty & [= Hs] & [= Ht]). simpl in *.
    by apply (Hnone tc Htc).
  - rewrite length_fmap. unfold select_columns.
    by rewrite merge_sort_Permutation, scan_rearranges.
Qed.

Lemma get_columns_without_primary_key_witness :
  resolve (conn (connect_to demo_account)) (str_truthy None) = Ok demo_catalog
  ∧ (forall tc, tc ∈ info_table_constraints demo_catalog ->
                ¬ (constraint_type tc = "PRIMARY KEY"
                   ∧ tc_table_schema tc = str_or (Some "SALES") "PUBLIC"
                   ∧ tc_table_name tc = "ORDERS"))
  ∧ ∃ cols,
      outcome (get_columns "ORDERS" None (Some "SALES"))
              (connect_to demo_account) = Ok cols
      ∧ Forall (fun ci => is_primary_key ci = false) cols
      ∧ length cols
        = length (filter (column_of (VStr (str_or (Some "SALES") "PUBLIC"))
                                    (VStr "ORDERS"))
                         (info_columns demo_catalog)).
Proof.
  assert (forall tc, tc ∈ info_table_constraints demo_catalog ->
                     ¬ (constraint_type tc = "PRIMARY KEY"
                        ∧ tc_table_schema tc = str_or (Some "SALES") "PUBLIC"
                        ∧ tc_table_name tc = "ORDERS")) as Hnone.
  { intros tc Htc (_ & _ & Ht). simpl in Htc.
    repeat (apply elem_of_cons in Htc as [->|Htc]; [discriminate|]).
    by apply elem_of_nil in Htc. }
  split; [reflexivity|]. split; [exact Hnone|].
  apply (get_columns_without_primary_key "ORDERS" None (Some "SALES")
           (connect_to demo_account) demo_catalog); [reflexivity|exact Hnone].
Defined.

(** ** [connect] *)





(** ** More on [build_select_query] and [get_tables] *)

Lemma scan_quoted_plain (a rest : string) :
  quote_free a -> not_quote_led rest ->
  scan_quoted (a +:+ String dquote rest) = Some (a, rest).
Proof.
  intros Ha Hrest. rewrite <- (escaped_quote_free a Ha) at 1.
  by apply scan_quoted_escaped.
Qed.

(** X22. When the table name holds a quote character after a
    quote-free beginning, followed by more text that does not start
    with a quote, the identifier that [build_select_query] opens for
    the table is read back as that beginning alone: what follows the
    quote in the name has become text of the statement. *)
Theorem build_select_query_name_cut_at_quote
    (a b : string) (limit : Z) (database schema : option string) :
  quote_free a ->
  not_quote_led b ->
  b ≠ "" ->
  ∃ body,
    build_select_query (a +:+ String dquote b) limit database schema
    = "SELECT * FROM " +:+ String dquote "" +:+ str_or schema "PUBLIC"
      +:+ String dquote "" +:+ "." +:+ String dquote body
    ∧ scan_quoted body
      = Some (a, b +:+ String dquote "" +:+ " LIMIT " +:+ str_of_int limit).
Proof.
  intros Ha Hb Hne.
  exists (a +:+ String dquote
            (b +:+ String dquote "" +:+ " LIMIT " +:+ str_of_int limit)).
  split.
  - unfold build_select_query.
    by rewrite !app_String, !app_empty_l, !app_assoc_str, !app_String.
  - apply scan_quoted_plain; [done|].
    destruct b as [|c b]; [done|]. by rewrite app_String.
Qed.

Lemma build_select_query_name_cut_at_quote_witness :
  quote_free "t"
  ∧ not_quote_led "; DROP TABLE users --"
  ∧ "; DROP TABLE users --" ≠ ""
  ∧ ∃ body,
      build_select_query ("t" +:+ String dquote "; DROP TABLE users --")
        10 None None
      = "SELECT * FROM " +:+ String dquote "" +:+ str_or None "PUBLIC"
        +:+ String dquote "" +:+ "." +:+ String dquote body
      ∧ scan_quoted body
        = Some ("t", "; DROP TABLE users --" +:+ String dquote "" +:+ " LIMIT "
                       +:+ str_of_int 10).
Proof.
  split; [reflexivity|]. split; [reflexivity|]. split; [discriminate|].
  apply (build_select_query_name_cut_at_quote "t" "; DROP TABLE users --"
           10 None None); [reflexivity|reflexivity|discriminate].
Defined.

(** X23. On any driver, once its statement has run, [get_tables]
    returns the pair of the first two fields of each row, in the order
    of the rows, and raises [IndexError] when some row has fewer than
    two fields. *)
Theorem get_tables_pairs_of_rows {B : Type} `{!Driver B}
    (database : option string) (s : session B) (rs : result_set) (b : B) :
  driver_execute (conn s)
    (tables_head +:+ db_prefix_of database +:+ tables_tail) None
  = (Ok rs, b) ->
  (forall tables,
     Forall2 (fun (r : row) p => r !! 0 = Some p.1 ∧ r !! 1 = Some p.2)
             (rs_rows rs) tables ->
     outcome (get_tables database) s = Ok tables)
  ∧ (Exists (fun r : row => length r <= 1) (rs_rows rs) ->
     outcome (get_tables database) s = Raise IndexError).
Proof.
  intros Hx. rewrite get_tables_unfold. unfold get_tables_via_info_schema.
  unfold tables_head, tables_tail in Hx.
  rewrite (fetch_and_map _ _ _ _ _ Hx). split.
  - apply mapM_pairs.
  - intros Hshort. apply mapM_Raise_Exists.
    + apply Forall_forall. intros r _.
      destruct (index_cases r 0) as [->|[x ->]]; [by left|].
      destruct (index_cases r 1) as [->|[y ->]]; [by left|right; eauto].
    + eapply Exists_impl; [done|]. intros r Hr. simpl in Hr.
      destruct (index_cases r 0) as [->|[x ->]]; [done|].
      by rewrite (index_short r 1 Hr).
Qed.

Lemma get_tables_pairs_of_rows_witness :
  let answer := ResultSet None [[VStr "SALES"; VStr "ORDERS"]; [VStr "SALES"]] None in
  driver_execute (conn (connect_to [Ok answer]))
    (tables_head +:+ db_prefix_of None +:+ tables_tail) None
  = (Ok answer, [])
  ∧ Exists (fun r : row => length r <= 1) (rs_rows answer)
  ∧ outcome (get_tables None) (connect_to [Ok answer]) = Raise IndexError.
Proof.
  intros answer.
  assert (Exists (fun r : row => length r <= 1) (rs_rows answer)) as Hshort.
  { apply Exists_cons_tl, Exists_cons_hd. simpl. lia. }
  split; [reflexivity|]. split; [exact Hshort|].
  apply (get_tables_pairs_of_rows None (connect_to [Ok answer]) answer []);
    [reflexivity|exact Hshort].
Defined.
